(** * Job market dashboard ([streamlit_app.py])

    A shallow embedding of the dashboard script: the salary formatter
    [format_salary], the data clean-up pass over the job table, the
    similarity ranking ([argsort] / [argmax] over cosine scores) and the five
    user-facing blocks of the page, followed by the properties proved about
    them.

    Conventions.
    - Python [float] / NumPy [float64] values are IEEE-754 binary64 numbers,
      modelled by [spec_float] with the operations of [SpecFloat] at precision
      53 and maximal exponent 1024 (round to nearest, ties to even).
    - Python [str] values are modelled by their UTF-8 encoding, a [string] of
      bytes.
    - A pandas [DataFrame] lives in an object store; indexing operations
      allocate new frames, column assignment updates a frame in place. *)

From Stdlib Require Import ZArith NArith String Ascii List Bool Lia.
From Stdlib Require Import Sorting.Sorted Sorting.Permutation.
From Stdlib Require Import DecimalString.
From Stdlib Require Import Floats.SpecFloat.
Import ListNotations.

Local Open Scope string_scope.
Local Open Scope Z_scope.

(* ================================================================== *)
(** * Binary64 arithmetic *)
(* ================================================================== *)

Module F64.

Definition prec : Z := 53.
Definition emax : Z := 1024.

Definition float : Type := spec_float.

(** Conversion of a Python [int] to [float] (exact below 2^53, rounded
    otherwise). *)
Definition of_Z (z : Z) : float := binary_normalize prec emax z 0 false.

Definition mul : float -> float -> float := SFmul prec emax.
Definition div : float -> float -> float := SFdiv prec emax.

(** A decimal literal [num/den] (e.g. [0.8] is [literal 8 10]): the binary64
    number nearest to the exact quotient. *)
Definition literal (num den : Z) : float := div (of_Z num) (of_Z den).

Definition is_nan (x : float) : bool :=
  match x with S754_nan => true | _ => false end.

(** Python comparisons [x >= y], [x <= y], [x < y]; all false when an operand
    is NaN. *)
Definition ge (x y : float) : bool := SFleb y x.
Definition le (x y : float) : bool := SFleb x y.
Definition lt (x y : float) : bool := SFltb x y.

(** The order NumPy sorts by: the usual [<], with NaN after every number. *)
Definition np_lt (a b : float) : bool :=
  lt a b || (is_nan b && negb (is_nan a)).

End F64.

(* ================================================================== *)
(** * Strings *)
(* ================================================================== *)

(** [str.lower()] on the ASCII range.  Bytes above 127 (pieces of non-ASCII
    characters) are left alone: the only non-ASCII characters that lower to
    an ASCII letter are U+212A (to "k") and U+0130 (to "i" followed by
    U+0307), and neither can take part in an occurrence of "india" or of
    "remote". *)
Definition lower_ascii (c : ascii) : ascii :=
  let n := nat_of_ascii c in
  if (Nat.leb 65 n && Nat.leb n 90)%bool then ascii_of_nat (n + 32) else c.

Fixpoint lower (s : string) : string :=
  match s with
  | EmptyString => EmptyString
  | String c s' => String (lower_ascii c) (lower s')
  end.

(** [needle in hay] *)
Fixpoint contains (needle hay : string) : bool :=
  (prefix needle hay ||
   match hay with
   | EmptyString => false
   | String _ hay' => contains needle hay'
   end)%bool.

(** Truth value of a Python string: non-empty. *)
Definition truthy (s : string) : bool :=
  match s with EmptyString => false | _ => true end.

(** ** [str.strip()]

    Python strips the Unicode white-space characters U+0009..U+000D,
    U+001C..U+0020, U+0085, U+00A0, U+1680, U+2000..U+200A, U+2028, U+2029,
    U+202F, U+205F and U+3000, recognised here by their UTF-8 encodings. *)

Definition is_space1 (c : ascii) : bool :=
  let n := nat_of_ascii c in
  ((Nat.leb 9 n && Nat.leb n 13) || (Nat.leb 28 n && Nat.leb n 32))%bool.

Definition is_space2 (c1 c2 : ascii) : bool :=
  let a := nat_of_ascii c1 in
  let b := nat_of_ascii c2 in
  (Nat.eqb a 194 && (Nat.eqb b 133 || Nat.eqb b 160))%bool.

Definition is_space3 (c1 c2 c3 : ascii) : bool :=
  let a := nat_of_ascii c1 in
  let b := nat_of_ascii c2 in
  let c := nat_of_ascii c3 in
  ((Nat.eqb a 225 && Nat.eqb b 154 && Nat.eqb c 128) ||
   (Nat.eqb a 226 && Nat.eqb b 128 &&
      ((Nat.leb 128 c && Nat.leb c 138) || Nat.eqb c 168 || Nat.eqb c 169
       || Nat.eqb c 175)) ||
   (Nat.eqb a 226 && Nat.eqb b 129 && Nat.eqb c 159) ||
   (Nat.eqb a 227 && Nat.eqb b 128 && Nat.eqb c 128))%bool.

Fixpoint lstrip (s : string) : string :=
  match s with
  | EmptyString => EmptyString
  | String c1 s1 =>
    if is_space1 c1 then lstrip s1 else
    match s1 with
    | EmptyString => s
    | String c2 s2 =>
      if is_space2 c1 c2 then lstrip s2 else
      match s2 with
      | EmptyString => s
      | String c3 s3 => if is_space3 c1 c2 c3 then lstrip s3 else s
      end
    end
  end.

Fixpoint rev_string (s : string) (acc : string) : string :=
  match s with
  | EmptyString => acc
  | String c s' => rev_string s' (String c acc)
  end.

(** The same scan from the right end, on the reversed byte sequence. *)
Fixpoint lstrip_rev (s : string) : string :=
  match s with
  | EmptyString => EmptyString
  | String c1 s1 =>
    if is_space1 c1 then lstrip_rev s1 else
    match s1 with
    | EmptyString => s
    | String c2 s2 =>
      if is_space2 c2 c1 then lstrip_rev s2 else
      match s2 with
      | EmptyString => s
      | String c3 s3 => if is_space3 c3 c2 c1 then lstrip_rev s3 else s
      end
    end
  end.

Definition rstrip (s : string) : string :=
  rev_string (lstrip_rev (rev_string s "")) "".

Definition strip (s : string) : string := rstrip (lstrip s).

(** UTF-8 encodings of the white-space characters, for stating properties. *)
Definition whitespace_chars : list string :=
  map (fun n => String (ascii_of_nat n) "") [9; 10; 11; 12; 13; 28; 29; 30; 31; 32]%nat
  ++ map (fun n => String (ascii_of_nat 194) (String (ascii_of_nat n) "")) [133; 160]%nat
  ++ [String (ascii_of_nat 225) (String (ascii_of_nat 154) (String (ascii_of_nat 128) ""))]
  ++ map (fun n => String (ascii_of_nat 226)
                     (String (ascii_of_nat 128) (String (ascii_of_nat n) "")))
         [128; 129; 130; 131; 132; 133; 134; 135; 136; 137; 138; 168; 169; 175]%nat
  ++ [String (ascii_of_nat 226) (String (ascii_of_nat 129) (String (ascii_of_nat 159) ""));
      String (ascii_of_nat 227) (String (ascii_of_nat 128) (String (ascii_of_nat 128) ""))].

(** ** Fixed-point formatting: the format spec [.pf]

    Python prints the decimal nearest to the exact binary value with [p]
    digits after the point; an exact tie goes to the even last digit. *)

Definition round_half_even (num den : Z) : Z :=
  let (q, r) := Z.div_eucl num den in
  match Z.compare (2 * r) den with
  | Lt => q
  | Gt => q + 1
  | Eq => if Z.even q then q else q + 1
  end.

(** [|x| * 10^p] rounded to an integer, for [|x| = m * 2^e]. *)
Definition scaled (p : nat) (m : positive) (e : Z) : Z :=
  match e with
  | Zneg k => round_half_even (Zpos m * 10 ^ Z.of_nat p) (2 ^ Zpos k)
  | _ => Zpos m * 10 ^ Z.of_nat p * 2 ^ e
  end.

Definition digits (n : Z) : string :=
  NilZero.string_of_uint (N.to_uint (Z.to_N n)).

Fixpoint zeros (n : nat) : string :=
  match n with
  | O => EmptyString
  | S n' => String "0" (zeros n')
  end.

(** The integer [q], read as a count of units [10^-p]. *)
Definition fixed (p : nat) (q : Z) : string :=
  let d := digits q in
  let d := zeros (S p - String.length d) ++ d in
  let n := (String.length d - p)%nat in
  match p with
  | O => d
  | _ => substring 0 n d ++ "." ++ substring n p d
  end.

Definition sign_str (s : bool) : string := if s then "-" else "".

Definition format_f (p : nat) (x : F64.float) : string :=
  match x with
  | S754_nan => "nan"
  | S754_infinity s => sign_str s ++ "inf"
  | S754_zero s => sign_str s ++ fixed p 0
  | S754_finite s m e => sign_str s ++ fixed p (scaled p m e)
  end.

(* ================================================================== *)
(** * Salary formatting *)
(* ================================================================== *)

(** Lines 33-39: the multiplier chosen by the [if]/[elif] chain. *)
Definition experience_multiplier (experience_level : string) : F64.float :=
  if String.eqb experience_level "Fresher" then F64.literal 8 10
  else if String.eqb experience_level "Mid-Level" then F64.literal 12 10
  else if String.eqb experience_level "Senior" then F64.literal 15 10
  else F64.literal 10 10.

(** Lines 43-56: the currency and scale chosen for an adjusted rate. *)
Definition render (country : string) (rate : F64.float) : string :=
  if contains "india" (lower country) then
    if F64.ge rate (F64.of_Z 100000) then
      "₹" ++ format_f 1 (F64.div rate (F64.of_Z 100000)) ++ " Lakh"
    else if F64.ge rate (F64.of_Z 1000) then
      "₹" ++ format_f 1 (F64.div rate (F64.of_Z 1000)) ++ " Thousand"
    else
      "₹" ++ format_f 2 rate ++ "/hr"
  else
    if F64.ge rate (F64.of_Z 100000) then
      "$" ++ format_f 1 (F64.div rate (F64.of_Z 100000)) ++ "K"
    else if F64.ge rate (F64.of_Z 1000) then
      "$" ++ format_f 1 (F64.div rate (F64.of_Z 1000)) ++ "K"
    else
      "$" ++ format_f 2 rate ++ "/hr".

Definition format_salary (rate : F64.float) (country experience_level : string) : string :=
  let multiplier := experience_multiplier experience_level in
  let rate := F64.mul rate multiplier in
  render country rate.

(* ================================================================== *)
(** * Data frames and the object store *)
(* ================================================================== *)

(** One row of a job table.  A missing cell is [None] in the text columns
    and NaN in the numeric column, as pandas stores it.  [label] is the row's
    index label. *)
Record Row := mkRow {
  label : Z;
  title : option string;
  avg_hourly_rate : F64.float;
  country : option string;
  job_type : option string;
  formatted_salary : option string
}.

(** A frame: the names of its columns, in order, and its rows.  Only the
    fields named in [columns] belong to the frame. *)
Record DataFrame := mkFrame {
  columns : list string;
  rows : list Row
}.

Definition has_column (c : string) (f : DataFrame) : bool :=
  existsb (String.eqb c) (columns f).

Definition set_job_type (v : option string) (r : Row) : Row :=
  mkRow (label r) (title r) (avg_hourly_rate r) (country r) v (formatted_salary r).

Definition set_avg_hourly_rate (v : F64.float) (r : Row) : Row :=
  mkRow (label r) (title r) v (country r) (job_type r) (formatted_salary r).

Definition set_country (v : option string) (r : Row) : Row :=
  mkRow (label r) (title r) (avg_hourly_rate r) v (job_type r) (formatted_salary r).

Definition set_formatted_salary (v : option string) (r : Row) : Row :=
  mkRow (label r) (title r) (avg_hourly_rate r) (country r) (job_type r) v.

Definition set_label (v : Z) (r : Row) : Row :=
  mkRow v (title r) (avg_hourly_rate r) (country r) (job_type r) (formatted_salary r).

(** Column names after [df[c] = ...]: a new column goes last. *)
Definition with_column (c : string) (cols : list string) : list string :=
  if existsb (String.eqb c) cols then cols else cols ++ [c].

(** Calls into the fitted vectorizer and into [cosine_similarity]. *)
Inductive Call :=
| CallTransform (docs : list string)
| CallCosine (n_queries n_docs : nat).

(** What the page shows. *)
Inductive Output :=
| st_write (s : string)
| st_markdown (s : string)
| st_info (s : string)
| st_warning (s : string)
| st_success (s : string)
| st_dataframe (f : DataFrame)
| st_table (f : DataFrame).

Definition loc := nat.

Record State := mkState {
  heap : list DataFrame;     (* the frames alive, by address *)
  drawn : nat;               (* random numbers consumed so far *)
  calls : list Call;         (* vectorizer / similarity calls made so far *)
  page : list Output         (* page content so far *)
}.

(** A computation either raises (the script stops with a Python exception) or
    returns a value and the next state. *)
Definition M (A : Type) : Type := State -> option (A * State).

Definition ret {A} (a : A) : M A := fun st => Some (a, st).

Definition bind {A B} (m : M A) (k : A -> M B) : M B :=
  fun st => match m st with
            | Some (a, st') => k a st'
            | None => None
            end.

Definition raise {A} : M A := fun _ => None.

Notation "x <- m ;; k" := (bind m (fun x => k))
  (at level 61, m at next level, right associativity).
Notation "m ;; k" := (bind m (fun _ => k))
  (at level 61, right associativity).

Definition lift_option {A} (o : option A) : M A :=
  match o with Some a => ret a | None => raise end.

Definition read (a : loc) : M DataFrame :=
  fun st => match nth_error (heap st) a with
            | Some f => Some (f, st)
            | None => None
            end.

Definition alloc (f : DataFrame) : M loc :=
  fun st => Some (length (heap st),
                  mkState (heap st ++ [f]) (drawn st) (calls st) (page st)).

Fixpoint update {A} (l : list A) (a : nat) (x : A) : list A :=
  match l, a with
  | [], _ => []
  | _ :: l', O => x :: l'
  | y :: l', S a' => y :: update l' a' x
  end.

Definition write (a : loc) (f : DataFrame) : M unit :=
  fun st => match nth_error (heap st) a with
            | Some _ => Some (tt, mkState (update (heap st) a f) (drawn st) (calls st) (page st))
            | None => None
            end.

Definition log (c : Call) : M unit :=
  fun st => Some (tt, mkState (heap st) (drawn st) (calls st ++ [c]) (page st)).

Definition emit (o : Output) : M unit :=
  fun st => Some (tt, mkState (heap st) (drawn st) (calls st) (page st ++ [o])).

Fixpoint mapM {A B} (f : A -> M B) (l : list A) : M (list B) :=
  match l with
  | [] => ret []
  | x :: l' => y <- f x ;; ys <- mapM f l' ;; ret (y :: ys)
  end.

(** ** pandas operations *)

(** [df[c]] and [df[[c1; ...]]] raise [KeyError] on an unknown column. *)
Definition require_column (c : string) (f : DataFrame) : M unit :=
  if has_column c f then ret tt else raise.

(** [df.drop(columns=[c], inplace=True)] *)
Definition drop_inplace (a : loc) (c : string) : M unit :=
  f <- read a ;;
  require_column c f ;;
  write a (mkFrame (filter (fun x => negb (String.eqb x c)) (columns f)) (rows f)).

(** [df.iloc[idx]] for a list of positions: a new frame; [IndexError] when a
    position is out of bounds. *)
Definition iloc (a : loc) (idx : list nat) : M loc :=
  f <- read a ;;
  rs <- mapM (fun i => lift_option (nth_error (rows f) i)) idx ;;
  alloc (mkFrame (columns f) rs).

(** [df.iloc[i]] for one position: the row, as a value. *)
Definition iloc_row (a : loc) (i : nat) : M Row :=
  f <- read a ;;
  lift_option (nth_error (rows f) i).

(** [df[mask]] for a boolean mask: a new frame. *)
Definition select_rows (a : loc) (mask : Row -> bool) : M loc :=
  f <- read a ;;
  alloc (mkFrame (columns f) (filter mask (rows f))).

(** [df[[c1; ...; cn]]]: a new frame. *)
Definition select_columns (a : loc) (cols : list string) : M loc :=
  f <- read a ;;
  mapM (fun c => require_column c f) cols ;;
  alloc (mkFrame cols (rows f)).

(** [df.reset_index(drop=True)]: a new frame labelled 0, 1, ... *)
Definition reset_index (a : loc) : M loc :=
  f <- read a ;;
  alloc (mkFrame (columns f)
           (map (fun ir => set_label (Z.of_nat (fst ir)) (snd ir))
                (combine (seq 0 (length (rows f))) (rows f)))).

(** [df.empty] *)
Definition empty (a : loc) : M bool :=
  f <- read a ;;
  ret (match rows f, columns f with
       | [], _ | _, [] => true
       | _, _ => false
       end).

(** [df["title"].astype(str)]: a missing title reads "nan". *)
Definition astype_str (c : option string) : string :=
  match c with Some s => s | None => "nan" end.

Definition title_strings (a : loc) : M (list string) :=
  f <- read a ;;
  require_column "title" f ;;
  ret (map (fun r => astype_str (title r)) (rows f)).

(** [df.apply(lambda x: format_salary(x["avg_hourly_rate"], x["country"], level), axis=1)];
    [country.lower()] raises on a missing country. *)
Definition salary_of_row (level : string) (f : DataFrame) (r : Row) : M string :=
  require_column "avg_hourly_rate" f ;;
  require_column "country" f ;;
  c <- lift_option (country r) ;;
  ret (format_salary (avg_hourly_rate r) c level).

Definition apply_format_salary (a : loc) (level : string) : M (list string) :=
  f <- read a ;;
  mapM (salary_of_row level f) (rows f).

(** [df["Formatted Salary"] = values], in place. *)
Definition assign_formatted_salary (a : loc) (values : list string) : M unit :=
  f <- read a ;;
  if Nat.eqb (length values) (length (rows f)) then
    write a (mkFrame (with_column "Formatted Salary" (columns f))
               (map (fun rv => set_formatted_salary (Some (snd rv)) (fst rv))
                    (combine (rows f) values)))
  else raise.

Definition show_dataframe (a : loc) : M unit :=
  f <- read a ;; emit (st_dataframe f).

Definition show_table (a : loc) : M unit :=
  f <- read a ;; emit (st_table f).

(* ================================================================== *)
(** * NumPy: argsort, slicing, argmax *)
(* ================================================================== *)

Definition item (a : list F64.float) (i : nat) : F64.float := nth i a S754_nan.

(** Insertion of index [i] before the first index whose key is not smaller:
    equal keys keep their original order. *)
Fixpoint insert_index (a : list F64.float) (i : nat) (l : list nat) : list nat :=
  match l with
  | [] => [i]
  | j :: l' =>
    if F64.np_lt (item a j) (item a i) then j :: insert_index a i l' else i :: l
  end.

(** [a.argsort()]: the indices of [a] in ascending order of value, taken as
    the stable sort (what NumPy's default kind does on short arrays, by
    insertion, and the tie-break behaviour the specification assumes). *)
Definition argsort (a : list F64.float) : list nat :=
  fold_right (insert_index a) [] (seq 0 (length a)).

(** The slice [l[-k:]]; Python reads [-0] as [0]. *)
Definition slice_last {A} (k : nat) (l : list A) : list A :=
  match k with
  | O => l
  | _ => skipn (length l - k) l
  end.

(** [similarity.argsort()[-k:][::-1]] *)
Definition top_idx (k : nat) (similarity : list F64.float) : list nat :=
  rev (slice_last k (argsort similarity)).

(** The scan of [a.argmax()]: [mp] is the running maximum found at
    [max_ind]; a NaN ends the scan. *)
Fixpoint argmax_from (mp : F64.float) (max_ind i : nat) (l : list F64.float) : nat :=
  match l with
  | [] => max_ind
  | x :: l' =>
    if negb (F64.le x mp) then
      if F64.is_nan x then i else argmax_from x i (S i) l'
    else argmax_from mp max_ind (S i) l'
  end.

(** [a.argmax()]; [ValueError] on an empty array. *)
Definition argmax (a : list F64.float) : option nat :=
  match a with
  | [] => None
  | x :: l => Some (if F64.is_nan x then O else argmax_from x 0 1 l)
  end.

(* ================================================================== *)
(** * The script *)
(* ================================================================== *)

(** Address of the global [df]. *)
Definition df : loc := O.

Definition job_types : list string :=
  ["Permanent Full-time"; "Part-time"; "Work From Home"; "On-site"; "Contract"].

(** Widget values of one run of the page. *)
Record Inputs := mkInputs {
  job_input : string;
  country_select : option string;
  skills_input : string;
  experience_level : string;
  resume_text : string;
  analyze_clicked : bool
}.

Section Dashboard.

(** The fitted vectorizer, one document at a time, and the cosine of two of
    its vectors: both opaque. *)
Variable vec : Type.
Variable tfidf : string -> vec.
Variable cosine : vec -> vec -> F64.float.

(** The random numbers behind [random.choice], in the order drawn. *)
Variable rand : nat -> nat.

(** [random.choice(job_types)] *)
Definition random_choice : M string :=
  fun st =>
    Some (nth (rand (drawn st) mod length job_types) job_types "",
          mkState (heap st) (S (drawn st)) (calls st) (page st)).

(** [[random.choice(job_types) for _ in range(n)]] *)
Fixpoint random_choices (n : nat) : M (list string) :=
  match n with
  | O => ret []
  | S n' => x <- random_choice ;; xs <- random_choices n' ;; ret (x :: xs)
  end.

(** [vectorizer.transform(docs)]: one vector per document; scikit-learn
    rejects an empty batch ([ValueError], "Found array with 0 sample(s)"). *)
Definition vectorizer_transform (docs : list string) : M (list vec) :=
  log (CallTransform docs) ;;
  match docs with
  | [] => raise
  | _ => ret (map tfidf docs)
  end.

(** [cosine_similarity(X, Y)]: one row of scores per row of [X]. *)
Definition cosine_similarity (X Y : list vec) : M (list (list F64.float)) :=
  log (CallCosine (length X) (length Y)) ;;
  ret (map (fun x => map (cosine x) Y) X).

(** [.flatten()] *)
Definition flatten (m : list (list F64.float)) : list F64.float := concat m.

(** ** Data clean-up (lines 16-26) *)

(** [s.fillna(pd.Series(fill))]: a missing cell takes the entry of [fill]
    found under the row's own label, and stays missing when there is none. *)
Definition fillna_series (fill : list string) (r : Row) : Row :=
  match job_type r with
  | Some _ => r
  | None =>
    if (0 <=? label r) && (Z.to_nat (label r) <? length fill)%nat
    then set_job_type (nth_error fill (Z.to_nat (label r))) r
    else r
  end.

Definition fillna_rate (r : Row) : Row :=
  if F64.is_nan (avg_hourly_rate r) then set_avg_hourly_rate (F64.of_Z 0) r else r.

Definition fillna_country (r : Row) : Row :=
  match country r with
  | Some _ => r
  | None => set_country (Some "Unknown") r
  end.

Definition cleanup : M unit :=
  f <- read df ;;
  (if has_column "id" f then drop_inplace df "id" else ret tt) ;;
  f <- read df ;;
  (if negb (has_column "job_type" f) then
     choices <- random_choices (length (rows f)) ;;
     write df (mkFrame (with_column "job_type" (columns f))
                 (map (fun rc => set_job_type (Some (snd rc)) (fst rc))
                      (combine (rows f) choices)))
   else
     choices <- random_choices (length (rows f)) ;;
     write df (mkFrame (columns f) (map (fillna_series choices) (rows f)))) ;;
  f <- read df ;;
  require_column "avg_hourly_rate" f ;;
  write df (mkFrame (columns f) (map fillna_rate (rows f))) ;;
  f <- read df ;;
  require_column "country" f ;;
  write df (mkFrame (columns f) (map fillna_country (rows f))).

(** ** Similarity of a query to every title (lines 137-139, 181-183, 200-202) *)
Definition similarity_to_titles (query : string) : M (list F64.float) :=
  titles <- title_strings df ;;
  tfidf_matrix <- vectorizer_transform titles ;;
  query_vec <- vectorizer_transform [query] ;;
  sim <- cosine_similarity query_vec tfidf_matrix ;;
  ret (flatten sim).

(** ** Job Recommendation Engine (lines 134-147) *)
Definition recommendation_engine (job_input : string) : M unit :=
  if truthy job_input then
    similarity <- similarity_to_titles job_input ;;
    let top_idx := top_idx 5 similarity in
    picked <- iloc df top_idx ;;
    results <- select_columns picked ["title"; "avg_hourly_rate"; "country"; "job_type"] ;;
    salaries <- apply_format_salary results "Mid-Level" ;;
    assign_formatted_salary results salaries ;;
    emit (st_write "### 🏆 Top Recommended Jobs") ;;
    shown <- reset_index results ;;
    show_dataframe shown
  else
    emit (st_info "Enter a job title or skill to get personalized job recommendations.").

(** ** Filter Jobs by Country (lines 153-161).  The select box offers the
    countries present in [df]; its value is an input of the run. *)
Definition country_is (c : option string) (r : Row) : bool :=
  match c, country r with
  | Some x, Some y => String.eqb y x
  | _, _ => false
  end.

Definition filter_by_country (country_select : option string) : M unit :=
  f <- read df ;;
  require_column "country" f ;;
  picked <- select_rows df (country_is country_select) ;;
  filtered_jobs <- select_columns picked ["title"; "avg_hourly_rate"; "country"; "job_type"] ;;
  e <- empty filtered_jobs ;;
  if negb e then
    salaries <- apply_format_salary filtered_jobs "Mid-Level" ;;
    assign_formatted_salary filtered_jobs salaries ;;
    shown <- reset_index filtered_jobs ;;
    show_dataframe shown
  else
    emit (st_warning "No jobs found for this country.").

(** ** Remote Job Listings (lines 167-172) *)
Definition title_contains_remote (r : Row) : bool :=
  match title r with
  | Some t => contains "remote" (lower t)
  | None => false
  end.

Definition remote_listings : M unit :=
  f <- read df ;;
  require_column "title" f ;;
  picked <- select_rows df title_contains_remote ;;
  remote_jobs <- select_columns picked ["title"; "avg_hourly_rate"; "country"; "job_type"] ;;
  e <- empty remote_jobs ;;
  if negb e then
    salaries <- apply_format_salary remote_jobs "Mid-Level" ;;
    assign_formatted_salary remote_jobs salaries ;;
    shown <- reset_index remote_jobs ;;
    show_dataframe shown
  else
    emit (st_warning "No remote job listings found.").

(** ** Skill Gap Analyzer (lines 178-189) *)
Definition skill_gap_analyzer (skills_input : string) : M unit :=
  if truthy skills_input then
    similarity <- similarity_to_titles skills_input ;;
    let top_idx := top_idx 3 similarity in
    picked <- iloc df top_idx ;;
    matched_jobs <- select_columns picked ["title"; "job_type"; "country"] ;;
    emit (st_success "Here are some roles that best match your skills:") ;;
    shown <- reset_index matched_jobs ;;
    show_table shown
  else
    emit (st_info "Enter your skills (e.g., Python, Excel, Machine Learning) to analyze skill fit and missing gaps.").

(** ** Resume Feedback Assistant (lines 195-218) *)
Definition best_match (resume_text : string) : M Row :=
  similarity <- similarity_to_titles resume_text ;;
  best_match_idx <- lift_option (argmax similarity) ;;
  iloc_row df best_match_idx.

Definition resume_feedback (experience_level resume_text : string) (clicked : bool) : M unit :=
  if clicked then
    if truthy (strip resume_text) then
      best_job <- best_match resume_text ;;
      f <- read df ;;
      require_column "avg_hourly_rate" f ;;
      require_column "country" f ;;
      c <- lift_option (country best_job) ;;
      let salary_display := format_salary (avg_hourly_rate best_job) c experience_level in
      require_column "job_type" f ;;
      let job_type := astype_str (job_type best_job) in
      emit (st_markdown "### 🧾 Resume Match Result") ;;
      require_column "title" f ;;
      emit (st_success ("**🏢 Best Match:** " ++ astype_str (title best_job))) ;;
      emit (st_write ("💰 **Expected Rate:** " ++ salary_display)) ;;
      emit (st_write ("🌍 **Country:** " ++ c)) ;;
      emit (st_write ("🏷️ **Job Type:** " ++ job_type)) ;;
      emit (st_markdown "### 💡 Personalized Feedback") ;;
      emit (st_info ("Your profile aligns well with " ++ astype_str (title best_job)
                     ++ ". Consider emphasizing key skills related to this role to improve job match quality."))
    else
      emit (st_warning "Please paste your resume text before analysis.")
  else ret tt.

(** ** One run of the page *)
Definition user_operations (i : Inputs) : M unit :=
  recommendation_engine (job_input i) ;;
  filter_by_country (country_select i) ;;
  remote_listings ;;
  skill_gap_analyzer (skills_input i) ;;
  resume_feedback (experience_level i) (resume_text i) (analyze_clicked i).

Definition script (i : Inputs) : M unit :=
  cleanup ;; user_operations i.

End Dashboard.

(** The state right after the two artifacts are loaded. *)
Definition loaded (raw : DataFrame) : State := mkState [raw] 0 [] [].

(* ================================================================== *)
(** * Vocabulary of the properties *)
(* ================================================================== *)

(** The country names "india" in some mix of upper and lower case. *)
Definition mentions_india (country : string) : Prop :=
  exists pre mid post, country = pre ++ mid ++ post /\ lower mid = "india".

(** The three-way scale of the formatter, as the specification words it:
    the large unit from 100000 up, the small unit from 1000 up to 100000, the
    plain hourly figure otherwise. *)
Definition scale_format (symbol large small : string) (adjusted : F64.float) : string :=
  if F64.ge adjusted (F64.of_Z 100000) then
    symbol ++ format_f 1 (F64.div adjusted (F64.of_Z 100000)) ++ large
  else if F64.ge adjusted (F64.of_Z 1000) && F64.lt adjusted (F64.of_Z 100000) then
    symbol ++ format_f 1 (F64.div adjusted (F64.of_Z 1000)) ++ small
  else
    symbol ++ format_f 2 adjusted ++ "/hr".

(** A position of the sort order of binary64 numbers: class, then exponent,
    then mantissa; both zeros share a position and NaN comes last. *)
Definition sort_key (x : F64.float) : Z * Z * Z :=
  match x with
  | S754_nan => (3, 0, 0)
  | S754_infinity false => (2, 0, 0)
  | S754_infinity true => (-2, 0, 0)
  | S754_zero _ => (0, 0, 0)
  | S754_finite false m e => (1, e, Zpos m)
  | S754_finite true m e => (-1, - e, Zneg m)
  end.

Definition key_lt (a b : Z * Z * Z) : Prop :=
  let '(a1, a2, a3) := a in
  let '(b1, b2, b3) := b in
  a1 < b1 \/ (a1 = b1 /\ (a2 < b2 \/ (a2 = b2 /\ a3 < b3))).

(** Index [i] comes before index [j] in the ascending stable order of [a]:
    a smaller value, or an equal value found earlier. *)
Definition ranks_before (a : list F64.float) (i j : nat) : Prop :=
  F64.np_lt (item a i) (item a j) = true
  \/ (F64.np_lt (item a j) (item a i) = false /\ (i < j)%nat).

(** [m] leaves the first [n] frames of the store as they are, and its result
    satisfies [Q]. *)
Definition keeps (n : nat) {A} (Q : A -> Prop) (m : M A) : Prop :=
  forall st a st',
    (n <= length (heap st))%nat -> m st = Some (a, st') ->
    firstn n (heap st') = firstn n (heap st)
    /\ (n <= length (heap st'))%nat /\ Q a.

(** From [st] to [st']: frames were only added, no random number was drawn,
    and [outs] was appended to the page. *)
Definition grows (st st' : State) (outs : list Output) : Prop :=
  (exists new, heap st' = (heap st ++ new)%list)
  /\ drawn st' = drawn st
  /\ page st' = (page st ++ outs)%list.

(** A frame the user-facing blocks can work on: the four columns exist and no
    country is missing. *)
Definition ready (f : DataFrame) : bool :=
  forallb (fun c => has_column c f) ["title"; "avg_hourly_rate"; "country"; "job_type"]
  && forallb (fun r => match country r with Some _ => true | None => false end) (rows f).

(** Every row of a displayed table carries the salary text of its own rate
    and country at level "Mid-Level". *)
Definition salary_at_mid_level (t : DataFrame) : Prop :=
  In "Formatted Salary" (columns t)
  /\ Forall (fun r => exists c, country r = Some c
                      /\ formatted_salary r
                         = Some (format_salary (avg_hourly_rate r) c "Mid-Level"))
            (rows t).

(** The invariant of the specification on one record. *)
Definition normalized_row (r : Row) : Prop :=
  F64.ge (avg_hourly_rate r) (F64.of_Z 0) = true
  /\ (exists c, country r = Some c /\ c <> "")
  /\ (exists t, job_type r = Some t /\ In t job_types).

(** What the values present in a raw record must satisfy for the invariant to
    hold after the clean-up of a table of [n] rows; [has_jt] tells whether the
    raw table has a "job_type" column. *)
Definition raw_ok (n : nat) (has_jt : bool) (r : Row) : Prop :=
  (F64.is_nan (avg_hourly_rate r) = true \/ F64.ge (avg_hourly_rate r) (F64.of_Z 0) = true)
  /\ country r <> Some ""
  /\ (has_jt = true ->
      match job_type r with
      | Some t => In t job_types
      | None => 0 <= label r < Z.of_nat n
      end).

(** The clean-up of one record: defaults for the missing rate and country,
    everything present kept. *)
Definition filled (has_jt : bool) (r r' : Row) : Prop :=
  label r' = label r
  /\ title r' = title r
  /\ avg_hourly_rate r'
     = (if F64.is_nan (avg_hourly_rate r) then F64.of_Z 0 else avg_hourly_rate r)
  /\ country r' = Some (match country r with Some c => c | None => "Unknown" end)
  /\ (has_jt = false -> exists t, job_type r' = Some t /\ In t job_types)
  /\ (has_jt = true -> forall t, job_type r = Some t -> job_type r' = Some t).

(** A text made of white-space characters only. *)
Inductive whitespace_only : string -> Prop :=
| ws_empty : whitespace_only ""
| ws_more w s : In w whitespace_chars -> whitespace_only s -> whitespace_only (w ++ s).

(** A row of missing cells, the default of positional look-ups. *)
Definition blank_row : Row := mkRow 0 None S754_nan None None None.

(** No constraint on a result. *)
Definition any {A} : A -> Prop := fun _ => True.

(** The scores of a query against the titles of a frame, row by row. *)
Definition title_scores {vec} (tfidf : string -> vec) (cosine : vec -> vec -> F64.float)
    (query : string) (f : DataFrame) : list F64.float :=
  map (fun r => cosine (tfidf query) (tfidf (astype_str (title r)))) (rows f).

Definition has_country (r : Row) : Prop := exists c, country r = Some c.

(** The salary text of a row at a given level. *)
Definition salary_text (level : string) (r : Row) : string :=
  format_salary (avg_hourly_rate r)
    (match country r with Some c => c | None => "" end) level.

(** A frame once its "Formatted Salary" column is assigned, and once its
    index is reset. *)
Definition with_salaries (t : DataFrame) : DataFrame :=
  mkFrame (with_column "Formatted Salary" (columns t))
    (map (fun rv => set_formatted_salary (Some (snd rv)) (fst rv))
         (combine (rows t) (map (salary_text "Mid-Level") (rows t)))).

Definition relabelled (t : DataFrame) : DataFrame :=
  mkFrame (columns t)
    (map (fun ir => set_label (Z.of_nat (fst ir)) (snd ir))
         (combine (seq 0 (length (rows t))) (rows t))).

(** What the job-type step alone does to a record. *)
Definition job_type_filled (n : nat) (has_jt : bool) (r r2 : Row) : Prop :=
  label r2 = label r /\ title r2 = title r
  /\ avg_hourly_rate r2 = avg_hourly_rate r /\ country r2 = country r
  /\ (has_jt = false -> exists t, job_type r2 = Some t /\ In t job_types)
  /\ (has_jt = true ->
      match job_type r with
      | Some t => job_type r2 = Some t
      | None => 0 <= label r < Z.of_nat n ->
                exists t, job_type r2 = Some t /\ In t job_types
      end).

(** ** Sample data *)


(** A small raw table with an id column, no job-type column, and gaps. *)
Definition sample_raw : DataFrame :=
  mkFrame ["id"; "title"; "avg_hourly_rate"; "country"]
    [ mkRow 0 (Some "Data Analyst") (F64.of_Z 120000) (Some "India") None None;
      mkRow 1 (Some "Remote Data Engineer") S754_nan None None None;
      mkRow 2 None (F64.of_Z 50) (Some "United States") None None;
      mkRow 3 (Some "Data Analyst") (F64.of_Z 1500) (Some "Canada") None None ].

(** The same table once cleaned, with every random draw equal to 0. *)
Definition sample_df : DataFrame :=
  mkFrame ["title"; "avg_hourly_rate"; "country"; "job_type"]
    [ mkRow 0 (Some "Data Analyst") (F64.of_Z 120000) (Some "India")
        (Some "Permanent Full-time") None;
      mkRow 1 (Some "Remote Data Engineer") (F64.of_Z 0) (Some "Unknown")
        (Some "Permanent Full-time") None;
      mkRow 2 None (F64.of_Z 50) (Some "United States")
        (Some "Permanent Full-time") None;
      mkRow 3 (Some "Data Analyst") (F64.of_Z 1500) (Some "Canada")
        (Some "Permanent Full-time") None ].


(** A stand-in vectorizer for running the script on the samples: a document
    is its own vector, and the score is 1 when the query occurs in the title,
    case apart, and 0 otherwise. *)
Definition sample_cosine (query doc : string) : F64.float :=
  if contains (lower query) (lower doc) then F64.of_Z 1 else F64.of_Z 0.

Definition sample_inputs : Inputs :=
  mkInputs "data" (Some "India") "analyst" "Senior" "data analyst, sql" true.

(* ================================================================== *)
(** * The country select box *)
(* ================================================================== *)

(** [s.dropna()] on a text column. *)
Definition dropna (col : list (option string)) : list string :=
  flat_map (fun c => match c with Some s => [s] | None => [] end) col.

(** [s.unique()]: the distinct values, in order of first appearance. *)
Fixpoint unique (l : list string) : list string :=
  match l with
  | [] => []
  | x :: l' => x :: filter (fun y => negb (String.eqb y x)) (unique l')
  end.

(** [sorted(l)] on strings.  Python orders [str] by code point, which is the
    byte order of the UTF-8 encodings; equal elements keep their order. *)
Fixpoint insert_sorted (x : string) (l : list string) : list string :=
  match l with
  | [] => [x]
  | y :: l' => if String.leb x y then x :: l else y :: insert_sorted x l'
  end.

Definition sorted (l : list string) : list string := fold_right insert_sorted [] l.

(** Line 153: [sorted(df["country"].dropna().unique())]. *)
Definition unique_countries (a : loc) : M (list string) :=
  f <- read a ;;
  require_column "country" f ;;
  ret (sorted (unique (dropna (map country (rows f))))).

(** [st.selectbox(label, options)]: the option at the position the user
    picked (position 0 while the box is untouched), [None] when there is no
    option. *)
Definition selectbox (options : list string) (choice : nat) : option string :=
  nth_error options choice.

(** Lines 153-161, the select box included. *)
Definition country_section (choice : nat) : M unit :=
  options <- unique_countries df ;;
  filter_by_country (selectbox options choice).

(* ================================================================== *)
(** * Further vocabulary *)
(* ================================================================== *)

(** The cells of a record under the four columns of a listing. *)
Definition cells (r : Row) : option string * F64.float * option string * option string :=
  (title r, avg_hourly_rate r, country r, job_type r).

(** The text names [word] in some mix of upper and lower case. *)
Definition mentions (word text : string) : Prop :=
  exists pre mid post, text = (pre ++ mid ++ post)%string /\ lower mid = word.

(** The frame the clean-up leaves in place of [raw], given the job types
    drawn. *)
Definition cleaned (choices : list string) (raw : DataFrame) : DataFrame :=
  let cols := filter (fun c => negb (String.eqb c "id")) (columns raw) in
  if has_column "job_type" raw then
    mkFrame cols
      (map fillna_country (map fillna_rate (map (fillna_series choices) (rows raw))))
  else
    mkFrame (cols ++ ["job_type"])
      (map fillna_country
         (map fillna_rate
            (map (fun rc => set_job_type (Some (snd rc)) (fst rc))
                 (combine (rows raw) choices)))).

(** A record the clean-up has nothing left to do on, in a table of [n] rows. *)
Definition settled (n : nat) (r : Row) : Prop :=
  F64.is_nan (avg_hourly_rate r) = false
  /\ country r <> None
  /\ (job_type r = None -> ~ (0 <= label r < Z.of_nat n)%Z).

(** Every completed run of [m] relates the state before to the state after
    by [R]. *)
Definition steady (R : State -> State -> Prop) {A} (m : M A) : Prop :=
  forall st a st', m st = Some (a, st') -> R st st'.

(** No random number drawn. *)
Definition same_draws (st st' : State) : Prop := drawn st' = drawn st.

(** No call to the vectorizer or to the similarity, no random number drawn. *)
Definition same_calls (st st' : State) : Prop :=
  calls st' = calls st /\ drawn st' = drawn st.


(* ================================================================== *)
(** * The order on scores *)
(* ================================================================== *)

Lemma np_lt_key x y : F64.np_lt x y = true <-> key_lt (sort_key x) (sort_key y).
Proof.
  unfold F64.np_lt, F64.lt, SFltb, SFcompare, F64.is_nan.
  destruct x as [sx|sx| |sx mx ex], y as [sy|sy| |sy my ey];
    try destruct sx; try destruct sy; cbn -[Z.lt Z.compare Z.opp];
    try (split; [discriminate | lia]); try (split; [lia | reflexivity]);
    try (split; [intros _; lia | reflexivity]).
  all: change (Pos.compare_cont Eq mx my) with (Pos.compare mx my).
  all: destruct (Z.compare_spec ex ey); destruct (Pos.compare_spec mx my);
    cbn; split; intros; try lia; try discriminate; try reflexivity.
Qed.

Lemma lt_key x y :
  F64.lt x y = true <->
  F64.is_nan x = false /\ F64.is_nan y = false /\ key_lt (sort_key x) (sort_key y).
Proof.
  unfold F64.lt, SFltb, SFcompare, F64.is_nan.
  destruct x as [sx|sx| |sx mx ex], y as [sy|sy| |sy my ey];
    try destruct sx; try destruct sy; cbn -[Z.lt Z.compare Z.opp];
    try (split; [discriminate | intros (? & ? & ?); try discriminate; lia]);
    try (split; [intros _; repeat split; lia | reflexivity]).
  all: change (Pos.compare_cont Eq mx my) with (Pos.compare mx my).
  all: destruct (Z.compare_spec ex ey); destruct (Pos.compare_spec mx my);
    cbn; (split; [intros; repeat split; try lia; try discriminate
                 | intros (? & ? & ?); try lia; try discriminate; try reflexivity ]).
Qed.

Lemma le_key x y :
  F64.le x y = true <->
  F64.is_nan x = false /\ F64.is_nan y = false /\ ~ key_lt (sort_key y) (sort_key x).
Proof.
  unfold F64.le, SFleb, SFcompare, F64.is_nan.
  destruct x as [sx|sx| |sx mx ex], y as [sy|sy| |sy my ey];
    try destruct sx; try destruct sy; cbn -[Z.lt Z.compare Z.opp];
    try (split; [discriminate | intros (? & ? & ?); try discriminate; lia]);
    try (split; [intros _; repeat split; lia | reflexivity]).
  all: change (Pos.compare_cont Eq mx my) with (Pos.compare mx my).
  all: destruct (Z.compare_spec ex ey); destruct (Pos.compare_spec mx my);
    cbn; (split; [intros; repeat split; try lia; try discriminate
                 | intros (? & ? & ?); try lia; try discriminate; try reflexivity ]).
Qed.

Lemma np_lt_irrefl x : F64.np_lt x x = false.
Proof.
  destruct (F64.np_lt x x) eqn:E; [|reflexivity].
  apply np_lt_key in E. unfold key_lt in E.
  destruct (sort_key x) as [[a b] c]. lia.
Qed.

Lemma np_lt_trans x y z :
  F64.np_lt x y = true -> F64.np_lt y z = true -> F64.np_lt x z = true.
Proof.
  rewrite !np_lt_key. unfold key_lt.
  destruct (sort_key x) as [[a b] c], (sort_key y) as [[a' b'] c'],
           (sort_key z) as [[a'' b''] c'']. lia.
Qed.

Lemma np_lt_cotrans x y z :
  F64.np_lt x z = true -> F64.np_lt x y = true \/ F64.np_lt y z = true.
Proof.
  rewrite !np_lt_key. unfold key_lt.
  destruct (sort_key x) as [[a b] c], (sort_key y) as [[a' b'] c'],
           (sort_key z) as [[a'' b''] c'']. lia.
Qed.



Lemma not_np_lt_le x y :
  F64.is_nan x = false -> F64.is_nan y = false ->
  F64.np_lt x y = false -> F64.le y x = true.
Proof.
  intros Hx Hy H. apply le_key. repeat split; trivial.
  intros K. apply np_lt_key in K. congruence.
Qed.

(** Below the first threshold and not below the second: strictly between. *)
Lemma between_thresholds x lo hi :
  F64.ge x hi = false -> F64.ge x lo = true -> F64.is_nan hi = false ->
  F64.lt x hi = true.
Proof.
  unfold F64.ge. intros H1 H2 Hhi.
  apply le_key in H2. destruct H2 as (_ & Hx & _).
  apply lt_key. repeat split; trivial.
  destruct (sort_key x) as [[a b] c] eqn:Kx, (sort_key hi) as [[a' b'] c'] eqn:Kh.
  assert (N : ~ (F64.le hi x = true)) by (unfold F64.le; congruence).
  rewrite le_key, Kx, Kh in N. unfold key_lt in *.
  assert (D : forall P : Prop, P \/ ~ P -> ~ ~ P -> P) by tauto.
  apply D; [lia|]. intros C. apply N. repeat split; trivial.
Qed.

(* ================================================================== *)
(** * Substring search *)
(* ================================================================== *)

Lemma prefix_iff (n h : string) :
  prefix n h = true <-> exists post, h = n ++ post.
Proof.
  revert h. induction n as [|c n IH]; intros h.
  - split; [intros _; now exists h | destruct h; reflexivity].
  - destruct h as [|d h]; cbn.
    + split; [discriminate | intros (post & E); discriminate].
    + destruct (Ascii.ascii_dec c d) as [<-|N].
      * rewrite IH. split; intros (post & E); exists post; congruence.
      * split; [discriminate | intros (post & E); congruence].
Qed.

Lemma contains_iff (n h : string) :
  contains n h = true <-> exists pre post, h = pre ++ n ++ post.
Proof.
  induction h as [|d h IH]; cbn [contains]; rewrite orb_true_iff, prefix_iff.
  - split.
    + intros [(post & E)|F]; [|discriminate]. now exists "", post.
    + intros (pre & post & E). left.
      destruct pre; [now exists post | discriminate].
  - rewrite IH. split.
    + intros [(post & E)|(pre & post & E)].
      * now exists "", post.
      * exists (String d pre), post. cbn. now rewrite E.
    + intros (pre & post & E). destruct pre as [|c pre].
      * left. now exists post.
      * right. exists pre, post. cbn in E. congruence.
Qed.

Lemma lower_app (a b : string) : lower (a ++ b) = lower a ++ lower b.
Proof. induction a as [|c a IH]; cbn; [reflexivity | now rewrite IH]. Qed.

Lemma lower_split (s x y : string) :
  lower s = x ++ y -> exists a b, s = a ++ b /\ lower a = x /\ lower b = y.
Proof.
  revert s. induction x as [|c x IH]; intros s E.
  - now exists "", s.
  - destruct s as [|d s]; [discriminate|]. cbn in E.
    injection E as E1 E2. destruct (IH _ E2) as (a & b & -> & Ha & Hb).
    exists (String d a), b. cbn. now rewrite E1, Ha, Hb.
Qed.

(** The test of line 43 is the case-insensitive containment of "india". *)
Lemma india_test (country : string) :
  contains "india" (lower country) = true <-> mentions_india country.
Proof.
  rewrite contains_iff. unfold mentions_india. split.
  - intros (pre & post & E).
    apply lower_split in E. destruct E as (a & b & -> & Ha & Hb).
    apply lower_split in Hb. destruct Hb as (m & p & -> & Hm & Hp).
    now exists a, m, p.
  - intros (pre & mid & post & -> & Hm).
    exists (lower pre), (lower post). now rewrite !lower_app, Hm.
Qed.

(* ================================================================== *)
(** * The salary formatter *)
(* ================================================================== *)

(** The three literals, bit for bit: 0.8 = 0x1.999999999999ap-1,
    1.2 = 0x1.3333333333333p+0, 1.5 = 0x1.8p+0. *)
Lemma multiplier_literals :
  F64.literal 8 10 = S754_finite false 7205759403792794 (-53)
  /\ F64.literal 12 10 = S754_finite false 5404319552844595 (-52)
  /\ F64.literal 15 10 = S754_finite false 6755399441055744 (-52)
  /\ F64.literal 10 10 = F64.of_Z 1.
Proof. repeat split; vm_compute; reflexivity. Qed.

(** The fixed-point format on a few values: rounding of the exact binary
    value, ties to even, sign of a negative zero, infinities and NaN. *)
Lemma format_f_examples :
  format_f 2 (F64.literal 2675 1000) = "2.67"
  /\ format_f 2 (F64.literal 1 8) = "0.12"
  /\ format_f 2 (F64.literal 3 8) = "0.38"
  /\ format_f 1 (F64.literal 5 100) = "0.1"
  /\ format_f 1 (F64.literal 144 100) = "1.4"
  /\ format_f 2 (F64.of_Z 1234567) = "1234567.00"
  /\ format_f 2 (S754_zero true) = "-0.00"
  /\ format_f 1 (S754_infinity false) = "inf"
  /\ format_f 1 S754_nan = "nan".
Proof. repeat split; vm_compute; reflexivity. Qed.

Lemma strip_examples :
  strip "  resume  " = "resume"
  /\ strip (String "009" (String "010" "")) = ""
  /\ strip ("a b" ++ String "194" (String "160" "")) = "a b"
  /\ strip "" = "".
Proof. repeat split; vm_compute; reflexivity. Qed.

Lemma render_scale (country : string) (adjusted : F64.float) :
  render country adjusted =
  if contains "india" (lower country)
  then scale_format "₹" " Lakh" " Thousand" adjusted
  else scale_format "$" "K" "K" adjusted.
Proof.
  unfold render, scale_format.
  destruct (contains "india" (lower country));
    destruct (F64.ge adjusted (F64.of_Z 100000)) eqn:G1; trivial;
    destruct (F64.ge adjusted (F64.of_Z 1000)) eqn:G2; trivial;
    rewrite (between_thresholds _ _ _ G1 G2 eq_refl); reflexivity.
Qed.

(** C1 (as the code has it).  "Mid-Level" has a branch of its own: the rate
    is multiplied by 1.2, and 120000 in India formats as 1.4 Lakh. *)
Theorem mid_level_multiplier (rate : F64.float) (country : string) :
  format_salary rate country "Mid-Level"
  = render country (F64.mul rate (F64.literal 12 10))
  /\ format_salary (F64.of_Z 120000) "India" "Mid-Level" = "₹1.4 Lakh".
Proof. split; [reflexivity | vm_compute; reflexivity]. Qed.

(** C1 fails as stated: the multiplier of "Mid-Level" is not the base 1.0 and
    the formatted text is not 1.2 Lakh. *)
Lemma mid_level_not_base :
  experience_multiplier "Mid-Level" <> F64.literal 10 10
  /\ format_salary (F64.of_Z 120000) "India" "Mid-Level" <> "₹1.2 Lakh".
Proof. split; vm_compute; discriminate. Qed.

(** C3.  Whatever the rate and the level, a country that names India gets the
    rupee scale (Lakh from 100000, Thousand from 1000 up to 100000, the plain
    two-decimal hourly figure otherwise) and any other country the dollar
    scale with "K" for both units; a zero rate in India for a fresher reads
    "₹0.00/hr". *)
Theorem format_salary_scales (rate : F64.float) (country experience_level : string) :
  let adjusted := F64.mul rate (experience_multiplier experience_level) in
  (mentions_india country ->
   format_salary rate country experience_level
   = scale_format "₹" " Lakh" " Thousand" adjusted)
  /\ (~ mentions_india country ->
      format_salary rate country experience_level
      = scale_format "$" "K" "K" adjusted)
  /\ format_salary (F64.of_Z 0) "India" "Fresher" = "₹0.00/hr".
Proof.
  cbv zeta. unfold format_salary. rewrite render_scale.
  split; [|split].
  - intros H. apply india_test in H. now rewrite H.
  - intros H. destruct (contains "india" (lower country)) eqn:E; trivial.
    apply india_test in E. contradiction.
  - vm_compute. reflexivity.
Qed.

Lemma format_salary_scales_witness :
  format_salary (F64.of_Z 2500) "Republic of INDIA" "Senior" = "₹3.8 Thousand"
  /\ format_salary (F64.of_Z 2500) "Indonesia" "Senior" = "$3.8K".
Proof.
  destruct (format_salary_scales (F64.of_Z 2500) "Republic of INDIA" "Senior")
    as (A & _ & _).
  destruct (format_salary_scales (F64.of_Z 2500) "Indonesia" "Senior")
    as (_ & B & _).
  split.
  - rewrite A; [vm_compute; reflexivity|].
    exists "Republic of ", "INDIA", "". split; reflexivity.
  - rewrite B; [vm_compute; reflexivity|].
    intros H. apply india_test in H. vm_compute in H. discriminate.
Defined.

(** C4.  The adjusted rate is the rate times 0.8 for "Fresher", times 1.5 for
    "Senior", and times 1.0 for a level that is none of the three names. *)
Theorem format_salary_multipliers (rate : F64.float) (country experience_level : string) :
  (experience_level = "Fresher" ->
   format_salary rate country experience_level
   = render country (F64.mul rate (F64.literal 8 10)))
  /\ (experience_level = "Senior" ->
      format_salary rate country experience_level
      = render country (F64.mul rate (F64.literal 15 10)))
  /\ (experience_level <> "Fresher" -> experience_level <> "Mid-Level" ->
      experience_level <> "Senior" ->
      format_salary rate country experience_level
      = render country (F64.mul rate (F64.literal 10 10))).
Proof.
  split; [|split].
  - intros ->. reflexivity.
  - intros ->. reflexivity.
  - intros F M S. unfold format_salary, experience_multiplier.
    apply String.eqb_neq in F, M, S. now rewrite F, M, S.
Qed.

Lemma format_salary_multipliers_witness :
  format_salary (F64.of_Z 1000) "Peru" "Fresher" = "$800.00/hr"
  /\ format_salary (F64.of_Z 1000) "Peru" "Senior" = "$1.5K"
  /\ format_salary (F64.of_Z 1000) "Peru" "Intern" = "$1.0K".
Proof.
  split; [|split].
  - rewrite (proj1 (format_salary_multipliers (F64.of_Z 1000) "Peru" "Fresher") eq_refl).
    vm_compute. reflexivity.
  - rewrite (proj1 (proj2 (format_salary_multipliers (F64.of_Z 1000) "Peru" "Senior")) eq_refl).
    vm_compute. reflexivity.
  - rewrite (proj2 (proj2 (format_salary_multipliers (F64.of_Z 1000) "Peru" "Intern")));
      [vm_compute; reflexivity | discriminate ..].
Defined.

(** C5 (as the code has it).  150000 for a senior in the United States is
    adjusted to 225000; 225000/100000 is exactly 2.25 = 9 * 2^49 * 2^-51, a
    tie between 2.2 and 2.3, which the one-decimal format resolves to the
    even digit: the text is "$2.2K". *)
Theorem senior_us_salary :
  F64.mul (F64.of_Z 150000) (experience_multiplier "Senior") = F64.of_Z 225000
  /\ F64.div (F64.of_Z 225000) (F64.of_Z 100000)
     = S754_finite false (9 * 2 ^ 49) (-51)
  /\ format_f 1 (S754_finite false (9 * 2 ^ 49) (-51)) = "2.2"
  /\ format_salary (F64.of_Z 150000) "United States" "Senior" = "$2.2K".
Proof. repeat split; vm_compute; reflexivity. Qed.

(** C5 fails as stated: the text is not "$2.3K". *)
Lemma senior_us_not_rounded_up :
  format_salary (F64.of_Z 150000) "United States" "Senior" <> "$2.3K".
Proof. vm_compute. discriminate. Qed.

(* ================================================================== *)
(** * Sorting and selecting indices *)
(* ================================================================== *)

Local Open Scope list_scope.
Local Open Scope nat_scope.

(** The three NumPy operations on a short array with ties and a NaN. *)
Lemma ranking_examples :
  let a := map F64.of_Z [3; 1; 2; 1; 3; 0]%Z in
  argsort a = [5; 1; 3; 2; 0; 4]
  /\ top_idx 3 a = [4; 0; 2]
  /\ top_idx 5 a = [4; 0; 2; 3; 1]
  /\ argmax a = Some 0
  /\ argsort [F64.of_Z 1; S754_nan; F64.of_Z 0] = [2; 0; 1]
  /\ argmax [F64.of_Z 1; S754_nan; F64.of_Z 7] = Some 1
  /\ argmax [] = None.
Proof. repeat split; vm_compute; reflexivity. Qed.

Section Argsort.
Variable a : list F64.float.

Lemma ranks_before_trans i j k :
  ranks_before a i j -> ranks_before a j k -> ranks_before a i k.
Proof.
  unfold ranks_before. intros [H1|[H1 L1]] [H2|[H2 L2]].
  - left. eapply np_lt_trans; eauto.
  - destruct (np_lt_cotrans _ (item a k) _ H1) as [C|C]; [now left | congruence].
  - destruct (np_lt_cotrans _ (item a i) _ H2) as [C|C]; [congruence | now left].
  - right. split; [|lia].
    destruct (F64.np_lt (item a k) (item a i)) eqn:E; trivial.
    destruct (np_lt_cotrans _ (item a j) _ E) as [C|C]; congruence.
Qed.

Lemma insert_index_perm i l : Permutation (insert_index a i l) (i :: l).
Proof.
  induction l as [|j l IH]; cbn; [reflexivity|].
  destruct (F64.np_lt (item a j) (item a i)); [|reflexivity].
  rewrite IH. apply perm_swap.
Qed.

Lemma insert_index_sorted i l :
  StronglySorted (ranks_before a) l -> Forall (fun j => (i < j)%nat) l ->
  StronglySorted (ranks_before a) (insert_index a i l).
Proof.
  induction 1 as [|j l S IH F]; intros B; cbn.
  - repeat constructor.
  - inversion B as [|? ? Bj Bl]; subst.
    destruct (F64.np_lt (item a j) (item a i)) eqn:E.
    + constructor; [now apply IH|].
      eapply Permutation_Forall; [symmetry; apply insert_index_perm|].
      constructor; [now left | assumption].
    + assert (Hij : ranks_before a i j) by (right; split; assumption).
      constructor; [now constructor|].
      constructor; [assumption|].
      eapply Forall_impl; [|exact F]. intros k Hk.
      eapply ranks_before_trans; eauto.
Qed.

Lemma argsort_from s n :
  let l := fold_right (insert_index a) [] (seq s n) in
  Permutation l (seq s n) /\ StronglySorted (ranks_before a) l.
Proof.
  revert s. induction n as [|n IH]; intros s; cbn.
  - split; constructor.
  - destruct (IH (S s)) as [P S']. split.
    + rewrite insert_index_perm. now constructor.
    + apply insert_index_sorted; [assumption|].
      eapply Permutation_Forall; [symmetry; exact P|].
      apply Forall_forall. intros j Hj. apply in_seq in Hj. lia.
Qed.

Lemma argsort_perm : Permutation (argsort a) (seq 0 (length a)).
Proof. apply argsort_from. Qed.

Lemma argsort_sorted : StronglySorted (ranks_before a) (argsort a).
Proof. apply argsort_from. Qed.

End Argsort.




Lemma StronglySorted_nth {A} (R : A -> A -> Prop) l d p q :
  StronglySorted R l -> (p < q < length l)%nat -> R (nth p l d) (nth q l d).
Proof.
  intros S. revert p q. induction S as [|x l S IH F]; intros p q H; cbn in H; [lia|].
  destruct q as [|q]; [lia|]. destruct p as [|p]; cbn.
  - rewrite Forall_forall in F. apply F. apply nth_In. lia.
  - apply IH. lia.
Qed.


(* ================================================================== *)
(** * The largest score *)
(* ================================================================== *)

Lemma np_lt_nan_r x : F64.is_nan x = false -> F64.np_lt x S754_nan = true.
Proof. destruct x as [[]|[]| |[] ? ?]; cbn; trivial; discriminate. Qed.

Lemma np_lt_nan_l x : F64.np_lt S754_nan x = false.
Proof. destruct x as [[]|[]| |[] ? ?]; reflexivity. Qed.

Lemma is_nan_eq x : F64.is_nan x = true -> x = S754_nan.
Proof. destruct x; cbn; congruence. Qed.

Lemma item_app_r (pre l : list F64.float) x :
  item (pre ++ x :: l) (length pre) = x.
Proof. unfold item. now rewrite nth_middle. Qed.

(** The scan keeps the first largest element seen. *)
Lemma argmax_from_spec (a : list F64.float) :
  forall l pre mp m,
    a = pre ++ l -> (m < length pre)%nat -> item a m = mp -> F64.is_nan mp = false ->
    (forall j, (j < length pre)%nat -> F64.np_lt mp (item a j) = false) ->
    (forall j, (j < m)%nat -> F64.np_lt (item a j) mp = true) ->
    let r := argmax_from mp m (length pre) l in
    (r < length a)%nat
    /\ (forall j, (j < length a)%nat -> F64.np_lt (item a r) (item a j) = false)
    /\ (forall j, (j < r)%nat -> F64.np_lt (item a j) (item a r) = true).
Proof.
  induction l as [|x l IH]; intros pre mp m Ha Hm Hmp Hn Hmax Hbefore; cbn.
  - rewrite app_nil_r in Ha. subst a. rewrite Hmp. repeat split; trivial.
  - assert (Hx : item a (length pre) = x) by (subst a; apply item_app_r).
    assert (Ha' : a = (pre ++ [x]) ++ l) by (now rewrite <- app_assoc).
    assert (Hl : length (pre ++ [x]) = S (length pre))
      by (rewrite length_app; cbn; lia).
    destruct (F64.le x mp) eqn:E; cbn.
    + rewrite <- Hl. apply IH; trivial; [lia|].
      intros j Hj. rewrite Hl in Hj.
      destruct (Nat.eq_dec j (length pre)) as [->|]; [|apply Hmax; lia].
      rewrite Hx. apply le_key in E. destruct E as (_ & _ & E).
      destruct (F64.np_lt mp x) eqn:K; trivial. apply np_lt_key in K. contradiction.
    + destruct (F64.is_nan x) eqn:Nx.
      * apply is_nan_eq in Nx. rewrite Hx, Nx.
        assert (La : (length pre < length a)%nat)
          by (rewrite Ha, length_app; cbn; lia).
        split; [assumption|]. split.
        -- intros j _. apply np_lt_nan_l.
        -- intros j Hj. apply np_lt_nan_r.
           destruct (F64.is_nan (item a j)) eqn:Nj; trivial.
           apply is_nan_eq in Nj. specialize (Hmax j Hj).
           rewrite Nj, np_lt_nan_r in Hmax; [discriminate | assumption].
      * assert (K : F64.np_lt mp x = true).
        { destruct (F64.np_lt mp x) eqn:K; trivial.
          rewrite (not_np_lt_le _ _ Hn Nx K) in E. discriminate. }
        rewrite <- Hl. apply IH; trivial; [lia| |].
        -- intros j Hj. rewrite Hl in Hj.
           destruct (Nat.eq_dec j (length pre)) as [->|];
             [rewrite Hx; apply np_lt_irrefl|].
           destruct (F64.np_lt x (item a j)) eqn:C; trivial.
           rewrite <- (Hmax j ltac:(lia)). symmetry. eapply np_lt_trans; eauto.
        -- intros j Hj.
           destruct (np_lt_cotrans _ (item a j) _ K) as [C|C]; trivial.
           rewrite Hmax in C; [discriminate | assumption].
Qed.


(* ================================================================== *)
(** * Running computations *)
(* ================================================================== *)

Lemma bind_run {A B} (m : M A) (k : A -> M B) st a st1 :
  m st = Some (a, st1) -> bind m k st = k a st1.
Proof. unfold bind. now intros ->. Qed.

Lemma bind_inv {A B} (m : M A) (k : A -> M B) st b st' :
  bind m k st = Some (b, st') ->
  exists a st1, m st = Some (a, st1) /\ k a st1 = Some (b, st').
Proof.
  unfold bind. destruct (m st) as [[a st1]|]; [|discriminate].
  intros E. now exists a, st1.
Qed.

Lemma mapM_pure {A B} (f : A -> M B) (g : A -> B) (l : list A) st :
  (forall x, In x l -> f x st = Some (g x, st)) ->
  mapM f l st = Some (map g l, st).
Proof.
  induction l as [|x l IH]; intros H; cbn [mapM map]; [reflexivity|].
  rewrite (bind_run _ _ _ _ _ (H x (or_introl eq_refl))).
  rewrite (bind_run _ _ _ _ _ (IH (fun y Hy => H y (or_intror Hy)))).
  reflexivity.
Qed.

Lemma nth_error_last {A} (l : list A) x : nth_error (l ++ [x]) (length l) = Some x.
Proof. rewrite nth_error_app2, Nat.sub_diag; [reflexivity | lia]. Qed.

Lemma update_last {A} (l : list A) x y : update (l ++ [x]) (length l) y = l ++ [y].
Proof. induction l as [|z l IH]; cbn; [reflexivity | now rewrite IH]. Qed.

Lemma length_update {A} (l : list A) a x : length (update l a x) = length l.
Proof.
  revert a. induction l as [|y l IH]; intros [|a]; cbn; trivial. now rewrite IH.
Qed.

Lemma firstn_update {A} (l : list A) a x n :
  n <= a -> firstn n (update l a x) = firstn n l.
Proof.
  revert a n. induction l as [|y l IH]; intros [|a] [|n] H; cbn; trivial; try lia.
  rewrite IH; [reflexivity | lia].
Qed.

(* ================================================================== *)
(** * Frames left alone *)
(* ================================================================== *)

Lemma keeps_ret n {A} (Q : A -> Prop) a : Q a -> keeps n Q (ret a).
Proof. intros H st b st' L E. injection E as <- <-. auto. Qed.

Lemma keeps_bind n {A B} (Q : A -> Prop) (R : B -> Prop) (m : M A) (k : A -> M B) :
  keeps n Q m -> (forall a, Q a -> keeps n R (k a)) -> keeps n R (bind m k).
Proof.
  intros Hm Hk st b st' L E.
  apply bind_inv in E. destruct E as (a & st1 & E1 & E2).
  destruct (Hm _ _ _ L E1) as (F1 & L1 & Qa).
  destruct (Hk a Qa _ _ _ L1 E2) as (F2 & L2 & Rb).
  repeat split; trivial. congruence.
Qed.

Lemma keeps_any n {A} (Q : A -> Prop) (m : M A) : keeps n Q m -> keeps n any m.
Proof. intros H st a st' L E. destruct (H _ _ _ L E) as (? & ? & _). now repeat split. Qed.

Lemma keeps_raise n {A} (Q : A -> Prop) : keeps n Q raise.
Proof. intros st a st' _ E. discriminate. Qed.

Lemma keeps_lift_option n {A} (o : option A) : keeps n any (lift_option o).
Proof. destruct o; [now apply keeps_ret | apply keeps_raise]. Qed.

Lemma keeps_read n a : keeps n any (read a).
Proof.
  intros st f st' L E. unfold read in E.
  destruct (nth_error (heap st) a); [|discriminate]. injection E as <- <-.
  now repeat split.
Qed.

Lemma keeps_alloc n f : keeps n (fun a => n <= a) (alloc f).
Proof.
  intros st a st' L E. injection E as <- <-. cbn.
  rewrite firstn_app, length_app.
  replace (n - length (heap st)) with 0 by lia. cbn. rewrite app_nil_r.
  repeat split; trivial. lia.
Qed.

Lemma keeps_write n a f : n <= a -> keeps n any (write a f).
Proof.
  intros H st u st' L E. unfold write in E.
  destruct (nth_error (heap st) a); [|discriminate]. injection E as <- <-. cbn.
  rewrite firstn_update, length_update by assumption. now repeat split.
Qed.

Lemma keeps_log n c : keeps n any (log c).
Proof. intros st u st' L E. injection E as <- <-. now repeat split. Qed.

Lemma keeps_emit n o : keeps n any (emit o).
Proof. intros st u st' L E. injection E as <- <-. now repeat split. Qed.

Lemma keeps_mapM n {A B} (f : A -> M B) (l : list A) :
  (forall x, keeps n any (f x)) -> keeps n any (mapM f l).
Proof.
  intros H. induction l as [|x l IH]; cbn [mapM]; [now apply keeps_ret|].
  eapply keeps_bind; [apply H | intros y _].
  eapply keeps_bind; [apply IH | intros ys _]. now apply keeps_ret.
Qed.

Lemma keeps_require_column n c f : keeps n any (require_column c f).
Proof.
  unfold require_column. destruct (has_column c f);
    [now apply keeps_ret | apply keeps_raise].
Qed.

(** One step of a sequence: the head by a known rule, then the rest. *)
Ltac keeps_step rule := eapply keeps_bind; [eapply rule | cbv beta; intros ? ?].

Lemma keeps_iloc n a idx : keeps n (fun b => n <= b) (iloc a idx).
Proof.
  unfold iloc. keeps_step keeps_read.
  keeps_step keeps_mapM; [intros; apply keeps_lift_option|].
  apply keeps_alloc.
Qed.

Lemma keeps_iloc_row n a i : keeps n any (iloc_row a i).
Proof. unfold iloc_row. keeps_step keeps_read. apply keeps_lift_option. Qed.

Lemma keeps_select_rows n a mask : keeps n (fun b => n <= b) (select_rows a mask).
Proof. unfold select_rows. keeps_step keeps_read. apply keeps_alloc. Qed.

Lemma keeps_select_columns n a cols : keeps n (fun b => n <= b) (select_columns a cols).
Proof.
  unfold select_columns. keeps_step keeps_read.
  keeps_step keeps_mapM; [intros; apply keeps_require_column|].
  apply keeps_alloc.
Qed.

Lemma keeps_reset_index n a : keeps n (fun b => n <= b) (reset_index a).
Proof. unfold reset_index. keeps_step keeps_read. apply keeps_alloc. Qed.

Lemma keeps_empty n a : keeps n any (empty a).
Proof. unfold empty. keeps_step keeps_read. now apply keeps_ret. Qed.

Lemma keeps_title_strings n a : keeps n any (title_strings a).
Proof.
  unfold title_strings. keeps_step keeps_read.
  keeps_step keeps_require_column. now apply keeps_ret.
Qed.

Lemma keeps_apply_format_salary n a level : keeps n any (apply_format_salary a level).
Proof.
  unfold apply_format_salary. keeps_step keeps_read.
  apply keeps_mapM. intros r. unfold salary_of_row.
  keeps_step keeps_require_column. keeps_step keeps_require_column.
  keeps_step keeps_lift_option. now apply keeps_ret.
Qed.

Lemma keeps_assign_formatted_salary n a values :
  n <= a -> keeps n any (assign_formatted_salary a values).
Proof.
  intros H. unfold assign_formatted_salary. keeps_step keeps_read.
  destruct (length values =? _); [now apply keeps_write | apply keeps_raise].
Qed.

Lemma keeps_show_dataframe n a : keeps n any (show_dataframe a).
Proof. unfold show_dataframe. keeps_step keeps_read. apply keeps_emit. Qed.

Lemma keeps_show_table n a : keeps n any (show_table a).
Proof. unfold show_table. keeps_step keeps_read. apply keeps_emit. Qed.

Section Blocks.

Context {vec : Type} (tfidf : string -> vec) (cosine : vec -> vec -> F64.float).

Lemma keeps_vectorizer_transform n docs :
  keeps n any (vectorizer_transform vec tfidf docs).
Proof.
  unfold vectorizer_transform. keeps_step keeps_log.
  destruct docs; [apply keeps_raise | now apply keeps_ret].
Qed.

Lemma keeps_cosine_similarity n X Y :
  keeps n any (cosine_similarity vec cosine X Y).
Proof. unfold cosine_similarity. keeps_step keeps_log. now apply keeps_ret. Qed.

Lemma keeps_similarity n query :
  keeps n any (similarity_to_titles vec tfidf cosine query).
Proof.
  unfold similarity_to_titles.
  keeps_step keeps_title_strings.
  keeps_step keeps_vectorizer_transform. keeps_step keeps_vectorizer_transform.
  keeps_step keeps_cosine_similarity. now apply keeps_ret.
Qed.

(** The shared tail of the three listings. *)
Lemma keeps_salary_table n a (pre : M unit) :
  n <= a -> keeps n any pre ->
  keeps n any (salaries <- apply_format_salary a "Mid-Level" ;;
               assign_formatted_salary a salaries ;;
               pre ;;
               shown <- reset_index a ;;
               show_dataframe shown).
Proof.
  intros H P. keeps_step keeps_apply_format_salary.
  keeps_step keeps_assign_formatted_salary; [assumption|].
  keeps_step P. keeps_step keeps_reset_index. apply keeps_show_dataframe.
Qed.

Lemma keeps_recommendation_engine n job_input :
  keeps n any (recommendation_engine vec tfidf cosine job_input).
Proof.
  unfold recommendation_engine. destruct (truthy job_input); [|apply keeps_emit].
  keeps_step keeps_similarity. keeps_step keeps_iloc.
  keeps_step keeps_select_columns.
  apply keeps_salary_table; [assumption | apply keeps_emit].
Qed.


Lemma keeps_listing n a :
  n <= a ->
  keeps n any (salaries <- apply_format_salary a "Mid-Level" ;;
               assign_formatted_salary a salaries ;;
               shown <- reset_index a ;;
               show_dataframe shown).
Proof.
  intros H. keeps_step keeps_apply_format_salary.
  keeps_step keeps_assign_formatted_salary; [assumption|].
  keeps_step keeps_reset_index. apply keeps_show_dataframe.
Qed.

Lemma keeps_filter_by_country n country_select :
  keeps n any (filter_by_country country_select).
Proof.
  unfold filter_by_country. keeps_step keeps_read.
  keeps_step keeps_require_column. keeps_step keeps_select_rows.
  keeps_step keeps_select_columns. keeps_step keeps_empty.
  destruct (negb _); [now apply keeps_listing | apply keeps_emit].
Qed.

Lemma keeps_remote_listings n : keeps n any remote_listings.
Proof.
  unfold remote_listings. keeps_step keeps_read.
  keeps_step keeps_require_column. keeps_step keeps_select_rows.
  keeps_step keeps_select_columns. keeps_step keeps_empty.
  destruct (negb _); [now apply keeps_listing | apply keeps_emit].
Qed.

Lemma keeps_skill_gap_analyzer n skills_input :
  keeps n any (skill_gap_analyzer vec tfidf cosine skills_input).
Proof.
  unfold skill_gap_analyzer. destruct (truthy skills_input); [|apply keeps_emit].
  keeps_step keeps_similarity. keeps_step keeps_iloc.
  keeps_step keeps_select_columns. keeps_step keeps_emit.
  keeps_step keeps_reset_index. apply keeps_show_table.
Qed.

Lemma keeps_best_match n resume_text :
  keeps n any (best_match vec tfidf cosine resume_text).
Proof.
  unfold best_match. keeps_step keeps_similarity.
  keeps_step keeps_lift_option. apply keeps_iloc_row.
Qed.

Lemma keeps_resume_feedback n level resume_text clicked :
  keeps n any (resume_feedback vec tfidf cosine level resume_text clicked).
Proof.
  unfold resume_feedback. destruct clicked; [|now apply keeps_ret].
  destruct (truthy _); [|apply keeps_emit].
  keeps_step keeps_best_match. keeps_step keeps_read.
  do 2 keeps_step keeps_require_column. keeps_step keeps_lift_option.
  keeps_step keeps_require_column. keeps_step keeps_emit.
  keeps_step keeps_require_column. do 5 keeps_step keeps_emit. apply keeps_emit.
Qed.

Lemma keeps_user_operations n i :
  keeps n any (user_operations vec tfidf cosine i).
Proof.
  unfold user_operations.
  keeps_step keeps_recommendation_engine. keeps_step keeps_filter_by_country.
  keeps_step keeps_remote_listings. keeps_step keeps_skill_gap_analyzer.
  apply keeps_resume_feedback.
Qed.

Lemma keeps_all {A} (m : M A) st a st' :
  keeps (length (heap st)) any m -> m st = Some (a, st') ->
  exists new, heap st' = heap st ++ new.
Proof.
  intros K E. destruct (K _ _ _ (le_n _) E) as (F & L & _).
  rewrite firstn_all in F. exists (skipn (length (heap st)) (heap st')).
  transitivity (firstn (length (heap st)) (heap st') ++ skipn (length (heap st)) (heap st'));
    [symmetry; apply firstn_skipn | now rewrite F].
Qed.

End Blocks.

(* ================================================================== *)
(** * Runs that succeed *)
(* ================================================================== *)

Lemma read_run st a f : nth_error (heap st) a = Some f -> read a st = Some (f, st).
Proof. unfold read. now intros ->. Qed.

Lemma require_run c f st : has_column c f = true -> require_column c f st = Some (tt, st).
Proof. unfold require_column. now intros ->. Qed.

Lemma select_columns_run st a t cols :
  nth_error (heap st) a = Some t ->
  forallb (fun c => has_column c t) cols = true ->
  select_columns a cols st
  = Some (length (heap st),
          mkState (heap st ++ [mkFrame cols (rows t)]) (drawn st) (calls st) (page st)).
Proof.
  intros H C. unfold select_columns.
  rewrite (bind_run _ _ _ _ _ (read_run _ _ _ H)).
  erewrite bind_run; [reflexivity|].
  apply mapM_pure with (g := fun _ => tt). intros c Hc.
  apply require_run. rewrite forallb_forall in C. now apply C.
Qed.

Lemma select_rows_run st a t mask :
  nth_error (heap st) a = Some t ->
  select_rows a mask st
  = Some (length (heap st),
          mkState (heap st ++ [mkFrame (columns t) (filter mask (rows t))])
                  (drawn st) (calls st) (page st)).
Proof.
  intros H. unfold select_rows. now rewrite (bind_run _ _ _ _ _ (read_run _ _ _ H)).
Qed.

Lemma iloc_run st a t idx d :
  nth_error (heap st) a = Some t ->
  Forall (fun i => i < length (rows t)) idx ->
  iloc a idx st
  = Some (length (heap st),
          mkState (heap st ++ [mkFrame (columns t) (map (fun i => nth i (rows t) d) idx)])
                  (drawn st) (calls st) (page st)).
Proof.
  intros H I. unfold iloc. rewrite (bind_run _ _ _ _ _ (read_run _ _ _ H)).
  erewrite bind_run; [reflexivity|].
  apply mapM_pure with (g := fun i => nth i (rows t) d). intros i Hi.
  rewrite Forall_forall in I. rewrite (nth_error_nth' _ d (I i Hi)). reflexivity.
Qed.

Lemma apply_format_salary_run st a t level :
  nth_error (heap st) a = Some t ->
  has_column "avg_hourly_rate" t = true -> has_column "country" t = true ->
  Forall has_country (rows t) ->
  apply_format_salary a level st = Some (map (salary_text level) (rows t), st).
Proof.
  intros H R C F. unfold apply_format_salary.
  rewrite (bind_run _ _ _ _ _ (read_run _ _ _ H)).
  apply mapM_pure. intros r Hr. unfold salary_of_row, salary_text.
  rewrite !(bind_run _ _ _ _ _ (require_run _ _ _ R)).
  rewrite !(bind_run _ _ _ _ _ (require_run _ _ _ C)).
  rewrite Forall_forall in F. destruct (F r Hr) as (c & ->). reflexivity.
Qed.

Lemma assign_last_run st h t :
  heap st = h ++ [t] ->
  assign_formatted_salary (length h) (map (salary_text "Mid-Level") (rows t)) st
  = Some (tt, mkState (h ++ [with_salaries t]) (drawn st) (calls st) (page st)).
Proof.
  intros H. unfold assign_formatted_salary.
  assert (R : nth_error (heap st) (length h) = Some t) by (rewrite H; apply nth_error_last).
  rewrite (bind_run _ _ _ _ _ (read_run _ _ _ R)).
  rewrite length_map, Nat.eqb_refl. unfold write. rewrite R, H, update_last.
  reflexivity.
Qed.

Lemma reset_index_run st a t :
  nth_error (heap st) a = Some t ->
  reset_index a st
  = Some (length (heap st),
          mkState (heap st ++ [relabelled t]) (drawn st) (calls st) (page st)).
Proof.
  intros H. unfold reset_index. now rewrite (bind_run _ _ _ _ _ (read_run _ _ _ H)).
Qed.

Lemma in_with_column c cols : In c (with_column c cols).
Proof.
  unfold with_column. destruct (existsb (String.eqb c) cols) eqn:E.
  - apply existsb_exists in E. destruct E as (x & Hx & E).
    apply String.eqb_eq in E. now subst.
  - apply in_or_app. right. now left.
Qed.

Lemma Forall_map_combine {A B C} (P : A -> Prop) (Q : C -> Prop)
    (h : A * B -> C) (g : A -> B) (l : list A) :
  (forall x, P x -> Q (h (x, g x))) -> Forall P l ->
  Forall Q (map h (combine l (map g l))).
Proof. intros H F. induction F as [|x l Px F IH]; cbn; constructor; auto. Qed.

Lemma Forall_map_combine_r {A B C} (P : B -> Prop) (Q : C -> Prop)
    (h : A * B -> C) (l : list A) (m : list B) :
  (forall x y, P y -> Q (h (x, y))) -> Forall P m -> Forall Q (map h (combine l m)).
Proof.
  intros H F. revert l. induction F as [|y m Py F IH]; intros [|x l]; cbn;
    constructor; auto.
Qed.

Lemma salary_table_ok t :
  Forall has_country (rows t) -> salary_at_mid_level (relabelled (with_salaries t)).
Proof.
  intros F. split; [apply in_with_column|]. cbn [rows relabelled with_salaries].
  apply Forall_map_combine_r
    with (P := fun r => exists c, country r = Some c
                 /\ formatted_salary r
                    = Some (format_salary (avg_hourly_rate r) c "Mid-Level")).
  - intros i r H. exact H.
  - eapply Forall_map_combine with (P := has_country); [|exact F].
    intros r (c & Hc). exists c. unfold salary_text. cbn. now rewrite Hc.
Qed.

Lemma ready_columns f :
  ready f = true ->
  has_column "title" f = true /\ has_column "avg_hourly_rate" f = true
  /\ has_column "country" f = true /\ has_column "job_type" f = true
  /\ Forall has_country (rows f).
Proof.
  unfold ready. rewrite andb_true_iff. intros [C R]. cbn [forallb] in C.
  rewrite !andb_true_iff in C. destruct C as (? & ? & ? & ? & _).
  repeat split; trivial.
  apply Forall_forall. intros r Hr. rewrite forallb_forall in R.
  specialize (R r Hr). unfold has_country. destruct (country r); [eauto | discriminate].
Qed.

Lemma ready_selection f rs :
  ready f = true ->
  forallb (fun c => has_column c (mkFrame (columns f) rs))
          ["title"; "avg_hourly_rate"; "country"; "job_type"] = true.
Proof. unfold ready. rewrite andb_true_iff. intros [C _]. exact C. Qed.

Lemma grows_refl st : grows st st [].
Proof. repeat split; [exists []|]; now rewrite app_nil_r. Qed.

Lemma grows_trans st1 st2 st3 o1 o2 :
  grows st1 st2 o1 -> grows st2 st3 o2 -> grows st1 st3 (o1 ++ o2).
Proof.
  intros ((n1 & H1) & D1 & P1) ((n2 & H2) & D2 & P2). repeat split.
  - exists (n1 ++ n2). now rewrite H2, H1, app_assoc.
  - congruence.
  - now rewrite P2, P1, app_assoc.
Qed.

Lemma grows_lookup st st' outs a f :
  grows st st' outs -> nth_error (heap st) a = Some f -> nth_error (heap st') a = Some f.
Proof.
  intros ((new & H) & _) E. rewrite H, nth_error_app1; [assumption|].
  apply nth_error_Some. congruence.
Qed.

(** The listing of the frame stored last: salaries, assignment, display. *)
Lemma listing_run st h t :
  heap st = h ++ [t] ->
  has_column "avg_hourly_rate" t = true -> has_column "country" t = true ->
  Forall has_country (rows t) ->
  (salaries <- apply_format_salary (length h) "Mid-Level" ;;
   assign_formatted_salary (length h) salaries ;;
   shown <- reset_index (length h) ;;
   show_dataframe shown) st
  = Some (tt, mkState (h ++ [with_salaries t] ++ [relabelled (with_salaries t)])
                (drawn st) (calls st)
                (page st ++ [st_dataframe (relabelled (with_salaries t))])).
Proof.
  intros H R C F.
  assert (E : nth_error (heap st) (length h) = Some t) by (rewrite H; apply nth_error_last).
  rewrite (bind_run _ _ _ _ _ (apply_format_salary_run _ _ _ _ E R C F)).
  rewrite (bind_run _ _ _ _ _ (assign_last_run _ _ _ H)).
  erewrite bind_run; [|apply reset_index_run; cbn [heap]; apply nth_error_last].
  unfold show_dataframe. cbn [heap].
  erewrite bind_run; [|apply read_run; cbn [heap]; apply nth_error_last].
  unfold emit. cbn. rewrite <- !app_assoc. reflexivity.
Qed.

Lemma titled_listing_run st h t o :
  heap st = h ++ [t] ->
  has_column "avg_hourly_rate" t = true -> has_column "country" t = true ->
  Forall has_country (rows t) ->
  (salaries <- apply_format_salary (length h) "Mid-Level" ;;
   assign_formatted_salary (length h) salaries ;;
   emit o ;;
   shown <- reset_index (length h) ;;
   show_dataframe shown) st
  = Some (tt, mkState (h ++ [with_salaries t] ++ [relabelled (with_salaries t)])
                (drawn st) (calls st)
                (page st ++ [o; st_dataframe (relabelled (with_salaries t))])).
Proof.
  intros H R C F.
  assert (E : nth_error (heap st) (length h) = Some t) by (rewrite H; apply nth_error_last).
  rewrite (bind_run _ _ _ _ _ (apply_format_salary_run _ _ _ _ E R C F)).
  rewrite (bind_run _ _ _ _ _ (assign_last_run _ _ _ H)).
  erewrite bind_run; [|reflexivity].
  erewrite bind_run; [|apply reset_index_run; cbn [heap]; apply nth_error_last].
  unfold show_dataframe. cbn [heap].
  erewrite bind_run; [|apply read_run; cbn [heap]; apply nth_error_last].
  unfold emit. cbn. rewrite <- !app_assoc. reflexivity.
Qed.

Lemma top_idx_in_range k a i : In i (top_idx k a) -> i < length a.
Proof.
  unfold top_idx. intros H. apply in_rev in H.
  assert (L : In i (argsort a)).
  { unfold slice_last in H. destruct k; [assumption|].
    rewrite <- (firstn_skipn (length (argsort a) - S k)). apply in_or_app. now right. }
  apply (Permutation_in _ (argsort_perm a)) in L. apply in_seq in L. lia.
Qed.

Section Runs.

Context {vec : Type} (tfidf : string -> vec) (cosine : vec -> vec -> F64.float).

Lemma vectorizer_transform_run docs st :
  docs <> [] ->
  vectorizer_transform vec tfidf docs st
  = Some (map tfidf docs,
          mkState (heap st) (drawn st) (calls st ++ [CallTransform docs]) (page st)).
Proof. intros N. destruct docs; [congruence | reflexivity]. Qed.

Lemma similarity_run st f query :
  nth_error (heap st) df = Some f -> has_column "title" f = true -> rows f <> [] ->
  similarity_to_titles vec tfidf cosine query st
  = Some (title_scores tfidf cosine query f,
          mkState (heap st) (drawn st)
            (calls st ++ [CallTransform (map (fun r => astype_str (title r)) (rows f));
                          CallTransform [query];
                          CallCosine 1 (length (rows f))])
            (page st)).
Proof.
  intros H T N. unfold similarity_to_titles.
  erewrite bind_run.
  2:{ unfold title_strings.
      rewrite (bind_run _ _ _ _ _ (read_run _ _ _ H)).
      rewrite (bind_run _ _ _ _ _ (require_run _ _ _ T)). reflexivity. }
  erewrite bind_run;
    [|apply vectorizer_transform_run; destruct (rows f); [congruence | discriminate]].
  erewrite bind_run; [|apply vectorizer_transform_run; discriminate].
  unfold cosine_similarity, log, flatten, title_scores.
  cbn. rewrite app_nil_r, !map_map, !length_map, <- !app_assoc. reflexivity.
Qed.

Lemma title_scores_length query f :
  length (title_scores tfidf cosine query f) = length (rows f).
Proof. apply length_map. Qed.

Lemma picked_have_country f idx d :
  Forall has_country (rows f) -> Forall (fun i => i < length (rows f)) idx ->
  Forall has_country (map (fun i => nth i (rows f) d) idx).
Proof.
  intros F I. apply Forall_map. eapply Forall_impl; [|exact I].
  intros i Hi. rewrite Forall_forall in F. apply F. now apply nth_In.
Qed.

(** The table of the recommendation block: the rows of [df] at the five
    top positions, with their salary column, labelled afresh. *)
Lemma recommendation_page st f job_input :
  nth_error (heap st) df = Some f -> ready f = true -> rows f <> [] ->
  truthy job_input = true ->
  exists st',
    recommendation_engine vec tfidf cosine job_input st = Some (tt, st')
    /\ grows st st'
         [st_write "### 🏆 Top Recommended Jobs";
          st_dataframe
            (relabelled
               (with_salaries
                  (mkFrame ["title"; "avg_hourly_rate"; "country"; "job_type"]
                     (map (fun i => nth i (rows f) blank_row)
                          (top_idx 5 (title_scores tfidf cosine job_input f))))))].
Proof.
  intros H R N Q. destruct (ready_columns _ R) as (T & A & C & J & F).
  unfold recommendation_engine. rewrite Q.
  rewrite (bind_run _ _ _ _ _ (similarity_run _ _ _ H T N)).
  set (idx := top_idx 5 _).
  assert (I : Forall (fun i => i < length (rows f)) idx).
  { apply Forall_forall. intros i Hi. apply top_idx_in_range in Hi.
    now rewrite title_scores_length in Hi. }
  erewrite bind_run; [|apply iloc_run with (d := blank_row); [exact H | exact I]].
  erewrite bind_run;
    [|apply select_columns_run; [cbn [heap]; apply nth_error_last | now apply ready_selection]].
  cbn [heap].
  erewrite titled_listing_run; [|reflexivity|reflexivity|reflexivity|].
  - eexists. split; [reflexivity|].
    split; [|split; reflexivity]. cbn [heap]. eexists. rewrite <- !app_assoc. reflexivity.
  - cbn. now apply picked_have_country.
Qed.

Lemma recommendation_run st f job_input :
  nth_error (heap st) df = Some f -> ready f = true -> rows f <> [] ->
  exists st' outs,
    recommendation_engine vec tfidf cosine job_input st = Some (tt, st')
    /\ grows st st' outs
    /\ (forall t, In (st_dataframe t) outs -> salary_at_mid_level t).
Proof.
  intros H R N. destruct (truthy job_input) eqn:Q.
  - destruct (recommendation_page st f job_input H R N Q) as (st' & E & G).
    exists st'. eexists. split; [exact E|]. split; [exact G|].
    intros t [D|[D|[]]]; [discriminate|]. injection D as <-.
    apply salary_table_ok. cbn [rows]. destruct (ready_columns _ R) as (_ & _ & _ & _ & F).
    apply picked_have_country; [assumption|].
    apply Forall_forall. intros i Hi. apply top_idx_in_range in Hi.
    now rewrite title_scores_length in Hi.
  - unfold recommendation_engine. rewrite Q.
    do 2 eexists. split; [reflexivity|]. split.
    + split; [|split; reflexivity]. exists []. cbn. now rewrite app_nil_r.
    + intros t [E|[]]. discriminate.
Qed.

Lemma argmax_spec (similarity : list F64.float) :
  similarity <> [] ->
  exists i, argmax similarity = Some i
    /\ (i < length similarity)%nat
    /\ (forall j, (j < length similarity)%nat ->
          F64.np_lt (item similarity i) (item similarity j) = false)
    /\ (forall j, (j < i)%nat ->
          F64.np_lt (item similarity j) (item similarity i) = true).
Proof.
  destruct similarity as [|x l]; [congruence|]. intros _. cbn [argmax].
  eexists. split; [reflexivity|].
  destruct (F64.is_nan x) eqn:Nx.
  - apply is_nan_eq in Nx. subst x. cbn [length]. split; [lia|]. split.
    + intros j _. apply np_lt_nan_l.
    + intros j Hj. lia.
  - apply (argmax_from_spec (x :: l) l [x] x O); trivial.
    + cbn. lia.
    + intros j Hj. cbn in Hj. assert (j = O) by lia. subst j. apply np_lt_irrefl.
    + intros j Hj. lia.
Qed.

Lemma empty_run st a t :
  nth_error (heap st) a = Some t ->
  empty a st = Some (match rows t, columns t with
                     | [], _ | _, [] => true
                     | _, _ => false
                     end, st).
Proof. intros H. unfold empty. now rewrite (bind_run _ _ _ _ _ (read_run _ _ _ H)). Qed.

Lemma Forall_filter {A} (P : A -> Prop) (m : A -> bool) (l : list A) :
  Forall P l -> Forall P (filter m l).
Proof.
  intros F. apply Forall_forall. intros x Hx. apply filter_In in Hx.
  rewrite Forall_forall in F. now apply F.
Qed.

(** A listing of the rows of [df] chosen by a mask (lines 156-161, 167-172). *)
Lemma masked_listing_run st f mask none :
  nth_error (heap st) df = Some f -> ready f = true ->
  exists st' outs,
    (picked <- select_rows df mask ;;
     selected <- select_columns picked ["title"; "avg_hourly_rate"; "country"; "job_type"] ;;
     e <- empty selected ;;
     if negb e then
       salaries <- apply_format_salary selected "Mid-Level" ;;
       assign_formatted_salary selected salaries ;;
       shown <- reset_index selected ;;
       show_dataframe shown
     else emit (st_warning none)) st = Some (tt, st')
    /\ grows st st' outs
    /\ (forall t, In (st_dataframe t) outs -> salary_at_mid_level t).
Proof.
  intros H R. destruct (ready_columns _ R) as (T & A & C & J & F).
  rewrite (bind_run _ _ _ _ _ (select_rows_run _ _ _ mask H)).
  erewrite bind_run;
    [|apply select_columns_run; [cbn [heap]; apply nth_error_last | now apply ready_selection]].
  cbn [heap rows].
  erewrite bind_run; [|apply empty_run; cbn [heap]; apply nth_error_last].
  cbn [rows columns].
  destruct (filter mask (rows f)) as [|r rs] eqn:E; cbn [negb].
  - do 2 eexists. split; [reflexivity|]. split.
    + split; [|split; reflexivity]. cbn [heap]. eexists.
      rewrite <- !app_assoc. reflexivity.
    + intros t [D|[]]. discriminate.
  - erewrite listing_run; [|reflexivity|reflexivity|reflexivity|].
    + do 2 eexists. split; [reflexivity|]. split.
      * split; [|split; reflexivity]. cbn [heap]. eexists.
        rewrite <- !app_assoc. reflexivity.
      * intros t [D|[]]. injection D as <-. apply salary_table_ok.
        cbn [rows]. rewrite <- E. now apply Forall_filter.
    + cbn [rows]. rewrite <- E. now apply Forall_filter.
Qed.

Lemma filter_by_country_run st f country_select :
  nth_error (heap st) df = Some f -> ready f = true ->
  exists st' outs,
    filter_by_country country_select st = Some (tt, st')
    /\ grows st st' outs
    /\ (forall t, In (st_dataframe t) outs -> salary_at_mid_level t).
Proof.
  intros H R. destruct (ready_columns _ R) as (T & A & C & J & F).
  unfold filter_by_country.
  rewrite (bind_run _ _ _ _ _ (read_run _ _ _ H)).
  rewrite (bind_run _ _ _ _ _ (require_run _ _ _ C)).
  now apply masked_listing_run with (f := f).
Qed.

Lemma remote_listings_run st f :
  nth_error (heap st) df = Some f -> ready f = true ->
  exists st' outs,
    remote_listings st = Some (tt, st')
    /\ grows st st' outs
    /\ (forall t, In (st_dataframe t) outs -> salary_at_mid_level t).
Proof.
  intros H R. destruct (ready_columns _ R) as (T & A & C & J & F).
  unfold remote_listings.
  rewrite (bind_run _ _ _ _ _ (read_run _ _ _ H)).
  rewrite (bind_run _ _ _ _ _ (require_run _ _ _ T)).
  now apply masked_listing_run with (f := f).
Qed.

(** The table of the skill-gap block: the rows of [df] at the three top
    positions, under the three columns shown. *)
Lemma skill_gap_page st f skills_input :
  nth_error (heap st) df = Some f -> ready f = true -> rows f <> [] ->
  truthy skills_input = true ->
  exists st',
    skill_gap_analyzer vec tfidf cosine skills_input st = Some (tt, st')
    /\ grows st st'
         [st_success "Here are some roles that best match your skills:";
          st_table
            (relabelled
               (mkFrame ["title"; "job_type"; "country"]
                  (map (fun i => nth i (rows f) blank_row)
                       (top_idx 3 (title_scores tfidf cosine skills_input f)))))].
Proof.
  intros H R N Q. destruct (ready_columns _ R) as (T & A & C & J & F).
  unfold skill_gap_analyzer. rewrite Q.
  rewrite (bind_run _ _ _ _ _ (similarity_run _ _ _ H T N)).
  set (idx := top_idx 3 _).
  assert (I : Forall (fun i => i < length (rows f)) idx).
  { apply Forall_forall. intros i Hi. apply top_idx_in_range in Hi.
    now rewrite title_scores_length in Hi. }
  erewrite bind_run; [|apply iloc_run with (d := blank_row); [exact H | exact I]].
  erewrite bind_run;
    [|apply select_columns_run; [cbn [heap]; apply nth_error_last|];
      cbn [forallb]; unfold has_column in T, C, J |- *; cbn [columns];
      now rewrite T, C, J].
  cbn [heap].
  erewrite bind_run; [|reflexivity].
  erewrite bind_run; [|apply reset_index_run; cbn [heap]; apply nth_error_last].
  unfold show_table. cbn [heap].
  erewrite bind_run; [|apply read_run; cbn [heap]; apply nth_error_last].
  unfold emit. cbn. eexists. split; [reflexivity|].
  split; [|split; [reflexivity|]]; cbn.
  - eexists. rewrite <- !app_assoc. reflexivity.
  - rewrite <- !app_assoc. reflexivity.
Qed.

Lemma skill_gap_run st f skills_input :
  nth_error (heap st) df = Some f -> ready f = true -> rows f <> [] ->
  exists st' outs,
    skill_gap_analyzer vec tfidf cosine skills_input st = Some (tt, st')
    /\ grows st st' outs
    /\ (forall t, ~ In (st_dataframe t) outs).
Proof.
  intros H R N. destruct (truthy skills_input) eqn:Q.
  - destruct (skill_gap_page st f skills_input H R N Q) as (st' & E & G).
    exists st'. eexists. split; [exact E|]. split; [exact G|].
    intros t [D|[D|[]]]; discriminate.
  - unfold skill_gap_analyzer. rewrite Q.
    do 2 eexists. split; [reflexivity|]. split.
    + split; [|split; reflexivity]. exists []. cbn. now rewrite app_nil_r.
    + intros t [D|[]]. discriminate.
Qed.


Lemma best_match_run st f resume_text :
  nth_error (heap st) df = Some f -> has_column "title" f = true -> rows f <> [] ->
  exists i best st',
    argmax (title_scores tfidf cosine resume_text f) = Some i
    /\ nth_error (rows f) i = Some best
    /\ best_match vec tfidf cosine resume_text st = Some (best, st')
    /\ grows st st' [].
Proof.
  intros H T N.
  destruct (argmax_spec (title_scores tfidf cosine resume_text f)) as (i & E & L & _).
  { unfold title_scores. destruct (rows f); [congruence | discriminate]. }
  rewrite title_scores_length in L.
  destruct (nth_error (rows f) i) as [best|] eqn:B;
    [|apply nth_error_None in B; lia].
  exists i, best. eexists. split; [assumption|]. split; [exact B|].
  unfold best_match. rewrite (bind_run _ _ _ _ _ (similarity_run _ _ _ H T N)).
  rewrite E. cbn [lift_option].
  erewrite bind_run; [|reflexivity].
  unfold iloc_row. erewrite bind_run; [|apply read_run; exact H].
  rewrite B. split; [reflexivity|].
  split; [|split; cbn; [reflexivity | now rewrite app_nil_r]].
  exists []. cbn. now rewrite app_nil_r.
Qed.

Lemma resume_feedback_run st f level resume_text clicked :
  nth_error (heap st) df = Some f -> ready f = true -> rows f <> [] ->
  exists st' outs,
    resume_feedback vec tfidf cosine level resume_text clicked st = Some (tt, st')
    /\ grows st st' outs
    /\ (forall t, ~ In (st_dataframe t) outs).
Proof.
  intros H R N. destruct (ready_columns _ R) as (T & A & C & J & F).
  unfold resume_feedback. destruct clicked.
  - destruct (truthy (strip resume_text)).
    + destruct (best_match_run st f resume_text H T N)
        as (i & best & st1 & _ & B & E & G).
      rewrite (bind_run _ _ _ _ _ E).
      pose proof (grows_lookup _ _ _ _ _ G H) as H1.
      rewrite (bind_run _ _ _ _ _ (read_run _ _ _ H1)).
      rewrite !(bind_run _ _ _ _ _ (require_run _ _ _ A)).
      rewrite !(bind_run _ _ _ _ _ (require_run _ _ _ C)).
      assert (Hc : has_country best).
      { rewrite Forall_forall in F. apply F. eapply nth_error_In; eauto. }
      destruct Hc as (c & ->). cbn [lift_option].
      erewrite bind_run; [|reflexivity].
      rewrite !(bind_run _ _ _ _ _ (require_run _ _ _ J)).
      erewrite bind_run; [|reflexivity].
      erewrite bind_run; [|apply require_run; exact T].
      do 5 (erewrite bind_run; [|reflexivity]).
      unfold emit. cbn. do 2 eexists. split; [reflexivity|].
      destruct G as ((new & G1) & G2 & G3). split.
      * split; [|split]; cbn; [exists new; assumption | assumption |].
        rewrite G3, app_nil_r, <- !app_assoc. reflexivity.
      * intros t D. cbn in D. intuition discriminate.
    + do 2 eexists. split; [reflexivity|]. split.
      * split; [|split; reflexivity]. exists []. cbn. now rewrite app_nil_r.
      * intros t [D|[]]. discriminate.
  - exists st, []. split; [reflexivity|]. split; [apply grows_refl | intros t []].
Qed.

End Runs.

(* ================================================================== *)
(** * The clean-up pass *)
(* ================================================================== *)

(** A write to [df] in a state whose store is known. *)
Ltac run_write :=
  unfold write, df; cbn [heap nth_error update drawn calls page]; reflexivity.

Section Cleanup.

Variable rand : nat -> nat.

Lemma random_choice_in st :
  exists c, random_choice rand st
            = Some (c, mkState (heap st) (S (drawn st)) (calls st) (page st))
            /\ In c job_types.
Proof.
  eexists. split; [reflexivity|]. apply nth_In.
  apply Nat.mod_upper_bound. discriminate.
Qed.

Lemma random_choices_run n st :
  exists choices,
    random_choices rand n st
    = Some (choices, mkState (heap st) (drawn st + n) (calls st) (page st))
    /\ length choices = n /\ Forall (fun c => In c job_types) choices.
Proof.
  revert st. induction n as [|n IH]; intros st.
  - exists []. rewrite Nat.add_0_r. destruct st. repeat split. constructor.
  - destruct (random_choice_in st) as (c & E & Hc).
    destruct (IH (mkState (heap st) (S (drawn st)) (calls st) (page st)))
      as (cs & Es & L & F).
    exists (c :: cs). cbn [random_choices].
    rewrite (bind_run _ _ _ _ _ E), (bind_run _ _ _ _ _ Es). cbn.
    rewrite Nat.add_succ_r. repeat split; [now rewrite L | now constructor].
Qed.

Lemma read_df st g rest : heap st = g :: rest -> read df st = Some (g, st).
Proof. intros H. apply read_run. now rewrite H. Qed.

Lemma write_df st g rest f :
  heap st = g :: rest ->
  write df f st = Some (tt, mkState (f :: rest) (drawn st) (calls st) (page st)).
Proof. intros H. unfold write. now rewrite H. Qed.

Lemma has_column_filter c d cols :
  c <> d ->
  existsb (String.eqb c) (filter (fun x => negb (String.eqb x d)) cols)
  = existsb (String.eqb c) cols.
Proof.
  intros N. induction cols as [|x cols IH]; cbn; [reflexivity|].
  destruct (String.eqb_spec x d) as [->|Nx]; cbn.
  - rewrite IH. apply String.eqb_neq in N. now rewrite N.
  - now rewrite IH.
Qed.

Lemma has_column_with_column c d cols :
  existsb (String.eqb c) cols = true ->
  existsb (String.eqb c) (with_column d cols) = true.
Proof.
  intros H. unfold with_column. destruct (existsb (String.eqb d) cols); [assumption|].
  rewrite existsb_app, H. reflexivity.
Qed.

Lemma job_types_assigned n has_jt (rs : list Row) (choices : list string) :
  has_jt = false -> length choices = length rs ->
  Forall (fun c => In c job_types) choices ->
  Forall2 (job_type_filled n has_jt) rs
    (map (fun rc => set_job_type (Some (snd rc)) (fst rc)) (combine rs choices)).
Proof.
  intros J. revert choices. induction rs as [|r rs IH]; intros [|c cs] L F; cbn;
    try discriminate; constructor.
  - inversion F; subst. repeat split; cbn; [eauto | congruence].
  - inversion F; subst. apply IH; [now injection L | assumption].
Qed.

Lemma job_types_filled has_jt (rs : list Row) (choices : list string) :
  has_jt = true -> Forall (fun c => In c job_types) choices ->
  Forall2 (job_type_filled (length choices) has_jt) rs (map (fillna_series choices) rs).
Proof.
  intros J F. induction rs as [|r rs IH]; cbn; constructor; [|assumption].
  unfold fillna_series. destruct (job_type r) as [t|] eqn:E.
  - repeat split; [congruence | now rewrite E].
  - destruct ((0 <=? label r)%Z && (Z.to_nat (label r) <? length choices)) eqn:B.
    + repeat split; cbn; [congruence|]. rewrite E. intros _ _.
      apply andb_true_iff in B. destruct B as [_ B]. apply Nat.ltb_lt in B.
      destruct (nth_error choices (Z.to_nat (label r))) as [t|] eqn:N;
        [|apply nth_error_None in N; lia].
      exists t. split; [reflexivity|]. rewrite Forall_forall in F. apply F.
      eapply nth_error_In; eauto.
    + repeat split; [congruence|]. rewrite E. intros _ R. exfalso.
      apply andb_false_iff in B. destruct B as [B|B].
      * apply Z.leb_gt in B. lia.
      * apply Nat.ltb_ge in B. lia.
Qed.

Lemma row_filled n has_jt r r2 :
  job_type_filled n has_jt r r2 ->
  filled has_jt r (fillna_country (fillna_rate r2))
  /\ (raw_ok n has_jt r -> normalized_row (fillna_country (fillna_rate r2))).
Proof.
  intros (L & T & A & C & J0 & J1).
  assert (Ea : avg_hourly_rate (fillna_country (fillna_rate r2))
               = if F64.is_nan (avg_hourly_rate r) then F64.of_Z 0 else avg_hourly_rate r).
  { unfold fillna_country, fillna_rate. rewrite A.
    destruct (F64.is_nan (avg_hourly_rate r)); cbn; destruct (country r2); cbn; congruence. }
  assert (Ec : country (fillna_country (fillna_rate r2))
               = Some (match country r with Some c => c | None => "Unknown" end)).
  { unfold fillna_country, fillna_rate. rewrite <- C.
    destruct (F64.is_nan (avg_hourly_rate r2)); cbn; destruct (country r2) eqn:E; cbn;
      congruence. }
  assert (Ej : job_type (fillna_country (fillna_rate r2)) = job_type r2).
  { unfold fillna_country, fillna_rate.
    destruct (F64.is_nan (avg_hourly_rate r2)); cbn; destruct (country r2); reflexivity. }
  assert (El : label (fillna_country (fillna_rate r2)) = label r
               /\ title (fillna_country (fillna_rate r2)) = title r).
  { unfold fillna_country, fillna_rate.
    destruct (F64.is_nan (avg_hourly_rate r2)); cbn; destruct (country r2); cbn; auto. }
  split.
  - destruct El. repeat split; trivial.
    + intros Hj. rewrite Ej. auto.
    + intros Hj t E. rewrite Ej. specialize (J1 Hj). now rewrite E in J1.
  - intros (Ra & Rc & Rj). repeat split.
    + rewrite Ea. destruct (F64.is_nan (avg_hourly_rate r)) eqn:N; [reflexivity|].
      destruct Ra; [congruence | assumption].
    + eexists. split; [exact Ec|]. destruct (country r); [congruence | discriminate].
    + rewrite Ej. destruct has_jt; [|auto].
      specialize (J1 eq_refl). specialize (Rj eq_refl).
      destruct (job_type r) as [t|]; [eauto | auto].
Qed.

Lemma rows_filled n has_jt rs rs2 :
  Forall2 (job_type_filled n has_jt) rs rs2 ->
  Forall2 (filled has_jt) rs (map fillna_country (map fillna_rate rs2))
  /\ (Forall (raw_ok n has_jt) rs ->
      Forall normalized_row (map fillna_country (map fillna_rate rs2))).
Proof.
  induction 1 as [|r r2 rs rs2 H F IH]; cbn; [split; constructor|].
  destruct IH as [I1 I2]. destruct (row_filled _ _ _ _ H) as [R1 R2]. split.
  - now constructor.
  - intros G. inversion G; subst. constructor; auto.
Qed.

Lemma cleanup_run st raw rest :
  heap st = raw :: rest ->
  has_column "avg_hourly_rate" raw = true -> has_column "country" raw = true ->
  exists st' f',
    cleanup rand st = Some (tt, st')
    /\ heap st' = f' :: rest /\ page st' = page st /\ calls st' = calls st
    /\ has_column "job_type" f' = true
    /\ (forall c, c <> "id" -> has_column c raw = true -> has_column c f' = true)
    /\ Forall2 (filled (has_column "job_type" raw)) (rows raw) (rows f')
    /\ (Forall (raw_ok (length (rows raw)) (has_column "job_type" raw)) (rows raw) ->
        Forall normalized_row (rows f')).
Proof.
  intros H A C. destruct raw as [cols rs]. unfold has_column in *. cbn [columns rows] in *.
  set (cols1 := if existsb (String.eqb "id") cols
                then filter (fun x => negb (String.eqb x "id")) cols else cols).
  assert (K1 : forall c, c <> "id" ->
                 existsb (String.eqb c) cols1 = existsb (String.eqb c) cols).
  { intros c N. unfold cols1. destruct (existsb (String.eqb "id") cols); trivial.
    now apply has_column_filter. }
  set (st1 := mkState (mkFrame cols1 rs :: rest) (drawn st) (calls st) (page st)).
  assert (E1 : forall B (k : M B),
             (f <- read df ;;
              (if has_column "id" f then drop_inplace df "id" else ret tt) ;; k) st
             = k st1).
  { intros B k. rewrite (bind_run _ _ _ _ _ (read_df _ _ _ H)).
    unfold has_column at 1. cbn [columns]. unfold cols1 in st1. unfold st1.
    destruct (existsb (String.eqb "id") cols) eqn:I.
    - erewrite bind_run; [reflexivity|]. unfold drop_inplace.
      rewrite (bind_run _ _ _ _ _ (read_df _ _ _ H)).
      erewrite bind_run; [|apply require_run; exact I].
      eapply write_df. exact H.
    - erewrite bind_run; [|reflexivity]. destruct st. cbn in H. now subst. }
  unfold cleanup. rewrite E1. clear E1.
  destruct (random_choices_run (length rs) st1) as (choices & Ec & Lc & Fc).
  set (jt := existsb (String.eqb "job_type") cols).
  assert (Kj : existsb (String.eqb "job_type") cols1 = jt) by (apply K1; discriminate).
  set (cols2 := if jt then cols1 else with_column "job_type" cols1).
  set (rs2 := if jt then map (fillna_series choices) rs
              else map (fun rc => set_job_type (Some (snd rc)) (fst rc)) (combine rs choices)).
  set (st2 := mkState (mkFrame cols2 rs2 :: rest) (drawn st + length rs) (calls st) (page st)).
  assert (H1 : heap st1 = mkFrame cols1 rs :: rest) by reflexivity.
  assert (E2 : forall B (k : M B),
             (f <- read df ;;
              (if negb (has_column "job_type" f) then
                 choices <- random_choices rand (length (rows f)) ;;
                 write df (mkFrame (with_column "job_type" (columns f))
                             (map (fun rc => set_job_type (Some (snd rc)) (fst rc))
                                  (combine (rows f) choices)))
               else
                 choices <- random_choices rand (length (rows f)) ;;
                 write df (mkFrame (columns f) (map (fillna_series choices) (rows f)))) ;;
              k) st1 = k st2).
  { intros B k. rewrite (bind_run _ _ _ _ _ (read_df _ _ _ H1)).
    unfold has_column at 1. cbn [columns rows]. rewrite Kj.
    unfold st2, cols2, rs2.
    destruct jt; cbn [negb]; (erewrite bind_run; [reflexivity|]);
      (erewrite bind_run; [|exact Ec]); run_write. }
  rewrite E2. clear E2.
  assert (K2 : forall c, existsb (String.eqb c) cols1 = true ->
                 existsb (String.eqb c) cols2 = true).
  { intros c Hc. unfold cols2. destruct jt; [assumption|].
    now apply has_column_with_column. }
  assert (J2 : existsb (String.eqb "job_type") cols2 = true).
  { unfold cols2. destruct jt eqn:J; [congruence|].
    pose proof (in_with_column "job_type" cols1) as I.
    apply existsb_exists. exists "job_type". split; [assumption | apply String.eqb_refl]. }
  assert (A2 : existsb (String.eqb "avg_hourly_rate") cols2 = true)
    by (apply K2; rewrite K1; [assumption | discriminate]).
  assert (C2 : existsb (String.eqb "country") cols2 = true)
    by (apply K2; rewrite K1; [assumption | discriminate]).
  exists (mkState (mkFrame cols2 (map fillna_country (map fillna_rate rs2)) :: rest)
            (drawn st + length rs) (calls st) (page st)).
  exists (mkFrame cols2 (map fillna_country (map fillna_rate rs2))).
  split.
  { assert (H2 : heap st2 = mkFrame cols2 rs2 :: rest) by reflexivity.
    rewrite (bind_run _ _ _ _ _ (read_df _ _ _ H2)).
    erewrite bind_run; [|apply require_run; exact A2].
    erewrite bind_run; [|run_write].
    erewrite bind_run; [|apply read_run; reflexivity].
    erewrite bind_run; [|apply require_run; exact C2].
    run_write. }
  cbn [heap page calls rows columns]. repeat split; trivial.
  - intros c N Hc. apply K2. now rewrite K1.
  - eapply rows_filled with (n := length rs). unfold rs2. fold jt.
    destruct jt eqn:J.
    + rewrite <- Lc. now apply job_types_filled.
    + now apply job_types_assigned.
  - eapply rows_filled with (n := length rs). unfold rs2. fold jt.
    destruct jt eqn:J.
    + rewrite <- Lc. now apply job_types_filled.
    + now apply job_types_assigned.
Qed.

End Cleanup.

(* ================================================================== *)
(** * The claims on ranking *)
(* ================================================================== *)




Section ResumeMatch.

Context {vec : Type} (tfidf : string -> vec) (cosine : vec -> vec -> F64.float).


End ResumeMatch.


(* ================================================================== *)
(** * The claims on the page *)
(* ================================================================== *)

Lemma lstrip_whitespace (w s : string) :
  In w whitespace_chars -> lstrip (w ++ s)%string = lstrip s.
Proof.
  intros H. unfold whitespace_chars in H. cbn in H.
  repeat (destruct H as [<-|H]; [reflexivity|]). contradiction.
Qed.

Lemma strip_whitespace_only (s : string) : whitespace_only s -> strip s = ""%string.
Proof.
  intros H. unfold strip.
  assert (E : lstrip s = ""%string).
  { induction H as [|w s Hw _ IH]; [reflexivity|]. now rewrite lstrip_whitespace. }
  now rewrite E.
Qed.

Section Page.

Context {vec : Type} (tfidf : string -> vec) (cosine : vec -> vec -> F64.float).

(** C8.  With an empty search field, or an empty skills field, the block
    shows its prompt and does nothing else: no call to the vectorizer or to
    the similarity, no frame created.  A resume made of white space only,
    once the button is pressed, gets the warning and nothing else. *)
Theorem idle_on_empty_input (st : State) (level resume_text : string) :
  recommendation_engine vec tfidf cosine "" st
  = Some (tt, mkState (heap st) (drawn st) (calls st)
                (page st ++ [st_info "Enter a job title or skill to get personalized job recommendations."]))
  /\ skill_gap_analyzer vec tfidf cosine "" st
     = Some (tt, mkState (heap st) (drawn st) (calls st)
                   (page st ++ [st_info "Enter your skills (e.g., Python, Excel, Machine Learning) to analyze skill fit and missing gaps."]))
  /\ (whitespace_only resume_text ->
      resume_feedback vec tfidf cosine level resume_text true st
      = Some (tt, mkState (heap st) (drawn st) (calls st)
                    (page st ++ [st_warning "Please paste your resume text before analysis."]))).
Proof.
  split; [reflexivity|]. split; [reflexivity|].
  intros W. unfold resume_feedback. now rewrite (strip_whitespace_only _ W).
Qed.

Lemma user_operations_run (i : Inputs) (st : State) (f : DataFrame) :
  nth_error (heap st) df = Some f -> ready f = true -> rows f <> [] ->
  exists st' outs,
    user_operations vec tfidf cosine i st = Some (tt, st')
    /\ grows st st' outs
    /\ (forall t, In (st_dataframe t) outs -> salary_at_mid_level t).
Proof.
  intros H R N. unfold user_operations.
  destruct (recommendation_run tfidf cosine st f (job_input i) H R N)
    as (st1 & o1 & E1 & G1 & T1).
  pose proof (grows_lookup _ _ _ _ _ G1 H) as H1.
  destruct (filter_by_country_run st1 f (country_select i) H1 R)
    as (st2 & o2 & E2 & G2 & T2).
  pose proof (grows_lookup _ _ _ _ _ G2 H1) as H2.
  destruct (remote_listings_run st2 f H2 R) as (st3 & o3 & E3 & G3 & T3).
  pose proof (grows_lookup _ _ _ _ _ G3 H2) as H3.
  destruct (skill_gap_run tfidf cosine st3 f (skills_input i) H3 R N)
    as (st4 & o4 & E4 & G4 & T4).
  pose proof (grows_lookup _ _ _ _ _ G4 H3) as H4.
  destruct (resume_feedback_run tfidf cosine st4 f (experience_level i)
              (resume_text i) (analyze_clicked i) H4 R N)
    as (st5 & o5 & E5 & G5 & T5).
  exists st5, (o1 ++ o2 ++ o3 ++ o4 ++ o5).
  rewrite (bind_run _ _ _ _ _ E1), (bind_run _ _ _ _ _ E2),
    (bind_run _ _ _ _ _ E3), (bind_run _ _ _ _ _ E4).
  split; [assumption|]. split.
  - eapply grows_trans; [eassumption|]. eapply grows_trans; [eassumption|].
    eapply grows_trans; [eassumption|]. eapply grows_trans; eassumption.
  - intros t Ht. rewrite !in_app_iff in Ht.
    destruct Ht as [Ht|[Ht|[Ht|[Ht|Ht]]]]; auto.
    + now apply T4 in Ht.
    + now apply T5 in Ht.
Qed.

(** C9.  Whatever the inputs, a run of the five blocks that completes leaves
    every frame that existed before it as it was, the corpus among them: the
    store only gains frames, on which the tables are built.  On a cleaned,
    non-empty corpus the run does complete, with the corpus unchanged. *)
Theorem corpus_read_only (i : Inputs) (st : State) :
  (forall st', user_operations vec tfidf cosine i st = Some (tt, st') ->
     exists new, heap st' = heap st ++ new)
  /\ (forall f, nth_error (heap st) df = Some f -> ready f = true -> rows f <> [] ->
        exists st', user_operations vec tfidf cosine i st = Some (tt, st')
                    /\ nth_error (heap st') df = Some f).
Proof.
  split.
  - intros st' E. eapply keeps_all; [apply (keeps_user_operations tfidf cosine) | exact E].
  - intros f H R N.
    destruct (user_operations_run i st f H R N) as (st' & outs & E & G & _).
    exists st'. split; [assumption|]. eapply grows_lookup; eassumption.
Qed.


End Page.

Lemma idle_on_empty_input_witness :
  resume_feedback string (fun s => s) sample_cosine "Senior"
    (" " ++ String "010" "")%string true (loaded sample_df)
  = Some (tt, mkState [sample_df] 0 []
                [st_warning "Please paste your resume text before analysis."]).
Proof.
  apply (proj2 (proj2 (idle_on_empty_input (fun s => s) sample_cosine
                         (loaded sample_df) "Senior" (" " ++ String "010" "")%string))).
  apply (ws_more " "); [cbn; tauto|].
  apply (ws_more (String "010" "") ""); [cbn; tauto | apply ws_empty].
Defined.

Lemma corpus_read_only_witness :
  exists st',
    user_operations string (fun s => s) sample_cosine sample_inputs (loaded sample_df)
    = Some (tt, st')
    /\ nth_error (heap st') df = Some sample_df
    /\ exists new, heap st' = [sample_df] ++ new.
Proof.
  destruct (corpus_read_only (fun s => s) sample_cosine sample_inputs (loaded sample_df))
    as [K R].
  destruct (R sample_df eq_refl eq_refl) as (st' & E & H); [discriminate|].
  exists st'. split; [assumption|]. split; [assumption|]. now apply K.
Defined.


(* ================================================================== *)
(** * The claim on the clean-up *)
(* ================================================================== *)

Lemma Forall2_right {A B} (R : A -> B -> Prop) (l : list A) (l' : list B) (y : B) :
  Forall2 R l l' -> In y l' -> exists x, In x l /\ R x y.
Proof.
  induction 1 as [|x y' l l' H F IH]; intros I; [contradiction|].
  destruct I as [<-|I].
  - exists x. split; [now left | assumption].
  - destruct (IH I) as (x' & Hx & Hr). exists x'. split; [now right | assumption].
Qed.

Section Normalization.

Variable rand : nat -> nat.


(** The whole script completes on a non-empty table that has the title, rate
    and country columns. *)
Lemma script_runs {vec} (tfidf : string -> vec) (cosine : vec -> vec -> F64.float)
    (i : Inputs) (raw : DataFrame) :
  has_column "title" raw = true -> has_column "avg_hourly_rate" raw = true ->
  has_column "country" raw = true -> rows raw <> [] ->
  exists st', script vec tfidf cosine rand i (loaded raw) = Some (tt, st').
Proof.
  intros T A C N.
  destruct (cleanup_run rand (loaded raw) raw [] eq_refl A C)
    as (st1 & f1 & E & Hh & _ & _ & J & K & F & _).
  assert (R : ready f1 = true).
  { unfold ready. apply andb_true_iff. split.
    - cbn [forallb]. rewrite J, !K by (trivial; discriminate). reflexivity.
    - apply forallb_forall. intros r Hr.
      destruct (Forall2_right _ _ _ _ F Hr) as (r0 & _ & (_ & _ & _ & -> & _)).
      reflexivity. }
  assert (N1 : rows f1 <> []).
  { intros Z. rewrite Z in F. inversion F. congruence. }
  assert (H1 : nth_error (heap st1) df = Some f1) by now rewrite Hh.
  destruct (user_operations_run tfidf cosine i st1 f1 H1 R N1) as (st' & _ & E' & _).
  exists st'. unfold script. now rewrite (bind_run _ _ _ _ _ E).
Qed.

End Normalization.



(* ================================================================== *)
(** * More on the ranking *)
(* ================================================================== *)

Lemma argsort_length a : length (argsort a) = length a.
Proof. rewrite (Permutation_length (argsort_perm a)). apply length_seq. Qed.

Lemma top_idx_firstn (k k' : nat) (a : list F64.float) :
  0 < k -> k <= k' -> top_idx k a = firstn k (top_idx k' a).
Proof.
  intros Hk Hk'. unfold top_idx, slice_last.
  destruct k as [|k]; [lia|]. destruct k' as [|k']; [lia|].
  set (l := argsort a). set (n := length l).
  rewrite firstn_rev, length_skipn, skipn_skipn. fold n.
  f_equal. f_equal. lia.
Qed.

(** X1.  A shorter ranking is the head of a longer one over the same scores:
    for [1 <= k <= k'], [argsort()[-k:][::-1]] is the first [k] entries of
    [argsort()[-k':][::-1]], position by position. *)
Theorem top_idx_prefix (k k' : nat) (similarity : list F64.float) :
  0 < k -> k <= k' ->
  top_idx k similarity = firstn k (top_idx k' similarity)
  /\ forall p i, nth_error (top_idx k similarity) p = Some i ->
       nth_error (top_idx k' similarity) p = Some i.
Proof.
  intros Hk Hk'. pose proof (top_idx_firstn k k' similarity Hk Hk') as E.
  split; [assumption|]. intros p i. rewrite E. clear E.
  generalize (top_idx k' similarity). clear. revert p.
  induction k as [|k IH]; intros [|p] [|x l]; cbn; try discriminate; trivial.
  apply IH.
Qed.

Lemma top_idx_prefix_witness :
  top_idx 3 (map F64.of_Z [3; 1; 2; 1; 3; 0]%Z)
  = firstn 3 (top_idx 5 (map F64.of_Z [3; 1; 2; 1; 3; 0]%Z)).
Proof.
  exact (proj1 (top_idx_prefix 3 5 (map F64.of_Z [3; 1; 2; 1; 3; 0]%Z)
                  ltac:(lia) ltac:(lia))).
Defined.






(** The index ranked first is the last of the ascending order. *)
Lemma top_idx_head k a :
  0 < k -> a <> [] ->
  nth_error (top_idx k a) 0 = Some (nth (length a - 1) (argsort a) 0).
Proof.
  intros Hk Ha. pose proof (argsort_length a) as L.
  assert (N : 0 < length a) by (destruct a; [congruence | cbn; lia]).
  unfold top_idx, slice_last. destruct k as [|k]; [lia|].
  set (l := argsort a) in *.
  assert (M : 0 < length (skipn (length l - S k) l)) by (rewrite length_skipn; lia).
  rewrite (nth_error_nth' _ 0) by (now rewrite length_rev).
  f_equal. rewrite rev_nth by assumption. rewrite nth_skipn, length_skipn.
  f_equal. lia.
Qed.

(** X4.  The record ranked first by [argsort()[-k:][::-1]] and the record
    [argmax()] picks have the same score; the latter is never after the
    former in the corpus. *)
Theorem top_rank_ties_with_argmax (k : nat) (similarity : list F64.float) :
  0 < k -> similarity <> [] ->
  exists i j,
    argmax similarity = Some i
    /\ nth_error (top_idx k similarity) 0 = Some j
    /\ i <= j < length similarity
    /\ F64.np_lt (item similarity i) (item similarity j) = false
    /\ F64.np_lt (item similarity j) (item similarity i) = false.
Proof.
  intros Hk Ha.
  destruct (argmax_spec similarity Ha) as (i & E & Hi & Mx & Bf).
  pose proof (argsort_length similarity) as L.
  pose proof (argsort_perm similarity) as P.
  pose proof (argsort_sorted similarity) as St.
  set (l := argsort similarity) in *. set (n := length similarity) in *.
  set (j := nth (n - 1) l 0).
  assert (Hj : In j l) by (apply nth_In; lia).
  assert (Rj : j < n) by (apply (Permutation_in _ P), in_seq in Hj; lia).
  assert (Top : forall x, x < n -> x <> j -> ranks_before similarity x j).
  { intros x Hx Nx.
    assert (Ix : In x l) by (apply (Permutation_in _ (Permutation_sym P)), in_seq; lia).
    destruct (In_nth _ _ 0 Ix) as (p & Hp & Ep).
    assert (p <> n - 1) by (intros ->; now apply Nx).
    rewrite <- Ep. apply StronglySorted_nth; [assumption | lia]. }
  exists i, j. split; [assumption|]. split; [now apply top_idx_head|].
  destruct (Nat.eq_dec i j) as [<-|Nij].
  - repeat split; try lia; apply np_lt_irrefl.
  - destruct (Top i Hi Nij) as [B|[B Lt]].
    + rewrite (Mx j Rj) in B. discriminate.
    + repeat split; try lia; [now apply Mx | assumption].
Qed.

Lemma top_rank_ties_with_argmax_witness :
  exists i j,
    argmax (map F64.of_Z [3; 1; 3]%Z) = Some i
    /\ nth_error (top_idx 5 (map F64.of_Z [3; 1; 3]%Z)) 0 = Some j
    /\ i <= j < 3.
Proof.
  destruct (top_rank_ties_with_argmax 5 (map F64.of_Z [3; 1; 3]%Z))
    as (i & j & A & B & C & _); [lia | discriminate |].
  now exists i, j.
Defined.

(* ================================================================== *)
(** * The clean-up, explicitly *)
(* ================================================================== *)

Lemma filter_absent c cols :
  existsb (String.eqb c) cols = false ->
  filter (fun x => negb (String.eqb x c)) cols = cols.
Proof.
  induction cols as [|x cols IH]; cbn; [reflexivity|].
  rewrite orb_false_iff. intros [N E]. rewrite String.eqb_sym, N. cbn.
  now rewrite IH.
Qed.

Section CleanupExplicit.

Variable rand : nat -> nat.

(** The clean-up, outcome by outcome. *)
Lemma cleanup_explicit st raw rest :
  heap st = raw :: rest ->
  exists choices,
    length choices = length (rows raw)
    /\ Forall (fun c => In c job_types) choices
    /\ cleanup rand st
       = if has_column "avg_hourly_rate" raw && has_column "country" raw
         then Some (tt, mkState (cleaned choices raw :: rest)
                          (drawn st + length (rows raw)) (calls st) (page st))
         else None.
Proof.
  intros H. destruct raw as [cols rs]. unfold cleaned, has_column. cbn [columns rows].
  set (cols1 := filter (fun c => negb (String.eqb c "id")) cols).
  assert (K1 : forall c, c <> "id" ->
                 existsb (String.eqb c) cols1 = existsb (String.eqb c) cols).
  { intros c N. now apply has_column_filter. }
  set (st1 := mkState (mkFrame cols1 rs :: rest) (drawn st) (calls st) (page st)).
  assert (E1 : forall B (k : M B),
             (f <- read df ;;
              (if has_column "id" f then drop_inplace df "id" else ret tt) ;; k) st
             = k st1).
  { intros B k. rewrite (bind_run _ _ _ _ _ (read_df _ _ _ H)).
    unfold has_column at 1. cbn [columns]. unfold st1, cols1.
    destruct (existsb (String.eqb "id") cols) eqn:I.
    - erewrite bind_run; [reflexivity|]. unfold drop_inplace.
      rewrite (bind_run _ _ _ _ _ (read_df _ _ _ H)).
      erewrite bind_run; [|apply require_run; exact I].
      eapply write_df. exact H.
    - erewrite bind_run; [|reflexivity]. rewrite filter_absent by assumption.
      destruct st. cbn in H. now subst. }
  unfold cleanup. rewrite E1. clear E1.
  destruct (random_choices_run rand (length rs) st1) as (choices & Ec & Lc & Fc).
  exists choices. split; [assumption|]. split; [assumption|].
  set (jt := existsb (String.eqb "job_type") cols).
  assert (Kj : existsb (String.eqb "job_type") cols1 = jt) by (apply K1; discriminate).
  set (cols2 := if jt then cols1 else cols1 ++ ["job_type"]).
  set (rs2 := if jt then map (fillna_series choices) rs
              else map (fun rc => set_job_type (Some (snd rc)) (fst rc)) (combine rs choices)).
  set (st2 := mkState (mkFrame cols2 rs2 :: rest) (drawn st + length rs) (calls st) (page st)).
  assert (H1 : heap st1 = mkFrame cols1 rs :: rest) by reflexivity.
  assert (E2 : forall B (k : M B),
             (f <- read df ;;
              (if negb (has_column "job_type" f) then
                 choices <- random_choices rand (length (rows f)) ;;
                 write df (mkFrame (with_column "job_type" (columns f))
                             (map (fun rc => set_job_type (Some (snd rc)) (fst rc))
                                  (combine (rows f) choices)))
               else
                 choices <- random_choices rand (length (rows f)) ;;
                 write df (mkFrame (columns f) (map (fillna_series choices) (rows f)))) ;;
              k) st1 = k st2).
  { intros B k. rewrite (bind_run _ _ _ _ _ (read_df _ _ _ H1)).
    unfold has_column at 1. cbn [columns rows]. rewrite Kj.
    unfold st2, cols2, rs2. unfold with_column. rewrite Kj.
    destruct jt; cbn [negb]; (erewrite bind_run; [reflexivity|]);
      (erewrite bind_run; [|exact Ec]); run_write. }
  rewrite E2. clear E2.
  assert (K2 : forall c, c <> "job_type" ->
                 existsb (String.eqb c) cols2 = existsb (String.eqb c) cols1).
  { intros c N. unfold cols2. destruct jt; [reflexivity|].
    rewrite existsb_app. cbn. apply String.eqb_neq in N. rewrite N.
    now rewrite !orb_false_r. }
  assert (A2 : existsb (String.eqb "avg_hourly_rate") cols2
               = existsb (String.eqb "avg_hourly_rate") cols)
    by (rewrite K2, K1; [reflexivity | discriminate ..]).
  assert (C2 : existsb (String.eqb "country") cols2 = existsb (String.eqb "country") cols)
    by (rewrite K2, K1; [reflexivity | discriminate ..]).
  assert (H2 : heap st2 = mkFrame cols2 rs2 :: rest) by reflexivity.
  rewrite (bind_run _ _ _ _ _ (read_df _ _ _ H2)).
  unfold require_column at 1, has_column at 1. cbn [columns]. rewrite A2.
  destruct (existsb (String.eqb "avg_hourly_rate") cols); [|reflexivity].
  erewrite bind_run; [|reflexivity].
  erewrite bind_run; [|run_write].
  erewrite bind_run; [|apply read_run; reflexivity].
  unfold require_column at 1, has_column at 1. cbn [columns]. rewrite C2.
  destruct (existsb (String.eqb "country") cols); [|reflexivity].
  erewrite bind_run; [|reflexivity].
  cbn [andb]. unfold cols2, rs2. fold jt. destruct jt; run_write.
Qed.

End CleanupExplicit.

Lemma settled_fixed n choices r :
  length choices = n -> settled n r ->
  fillna_country (fillna_rate (fillna_series choices r)) = r.
Proof.
  intros L (A & C & J).
  assert (E : fillna_series choices r = r).
  { unfold fillna_series. destruct (job_type r) eqn:T; [reflexivity|].
    destruct ((0 <=? label r)%Z && (Z.to_nat (label r) <? length choices)) eqn:B;
      [|reflexivity].
    exfalso. apply (J eq_refl). apply andb_true_iff in B. destruct B as [B1 B2].
    apply Z.leb_le in B1. apply Nat.ltb_lt in B2. lia. }
  rewrite E. unfold fillna_rate. rewrite A. unfold fillna_country.
  destruct (country r); [reflexivity | congruence].
Qed.

Lemma fill_settles n r2 :
  (job_type r2 = None -> ~ (0 <= label r2 < Z.of_nat n)%Z) ->
  settled n (fillna_country (fillna_rate r2)).
Proof.
  intros J. unfold fillna_country, fillna_rate, settled.
  destruct (F64.is_nan (avg_hourly_rate r2)) eqn:N; cbn;
    destruct (country r2) eqn:C; cbn; rewrite ?N, ?C;
    repeat split; try discriminate; trivial.
Qed.

Lemma cleaned_settled choices raw :
  length choices = length (rows raw) ->
  Forall (settled (length (rows raw))) (rows (cleaned choices raw)).
Proof.
  intros L. unfold cleaned. destruct (has_column "job_type" raw); cbn [rows].
  - rewrite map_map, map_map. apply Forall_map, Forall_forall. intros r _.
    apply fill_settles. unfold fillna_series.
    destruct (job_type r) eqn:T; [congruence|].
    destruct ((0 <=? label r)%Z && (Z.to_nat (label r) <? length choices)) eqn:B.
    + cbn. apply andb_true_iff in B. destruct B as [_ B]. apply Nat.ltb_lt in B.
      destruct (nth_error choices (Z.to_nat (label r))) eqn:E; [discriminate|].
      apply nth_error_None in E. lia.
    + intros _ R. apply andb_false_iff in B. destruct B as [B|B].
      * apply Z.leb_gt in B. lia.
      * apply Nat.ltb_ge in B. lia.
  - rewrite map_map, map_map. apply Forall_map, Forall_forall. intros rc _.
    apply fill_settles. cbn. discriminate.
Qed.

Lemma cleaned_length choices raw :
  length choices = length (rows raw) ->
  length (rows (cleaned choices raw)) = length (rows raw).
Proof.
  intros L. unfold cleaned. destruct (has_column "job_type" raw); cbn [rows];
    rewrite !length_map; [reflexivity|]. rewrite length_combine. lia.
Qed.

Lemma cleaned_columns choices raw :
  columns (cleaned choices raw)
  = filter (fun c => negb (String.eqb c "id")) (columns raw)
    ++ (if has_column "job_type" raw then [] else ["job_type"]).
Proof.
  unfold cleaned. destruct (has_column "job_type" raw); cbn [columns];
    [now rewrite app_nil_r | reflexivity].
Qed.

Lemma cleaned_has_column c choices raw :
  c <> "id" -> c <> "job_type" ->
  has_column c (cleaned choices raw) = has_column c raw.
Proof.
  intros Ni Nj. unfold has_column at 1. rewrite cleaned_columns, existsb_app.
  rewrite has_column_filter by assumption.
  destruct (has_column "job_type" raw); cbn; [apply orb_false_r|].
  apply String.eqb_neq in Nj. rewrite Nj. now rewrite !orb_false_r.
Qed.

Lemma filter_filter_id (cols : list string) :
  filter (fun c => negb (String.eqb c "id")) (filter (fun c => negb (String.eqb c "id")) cols)
  = filter (fun c => negb (String.eqb c "id")) cols.
Proof.
  induction cols as [|x cols IH]; cbn; [reflexivity|].
  destruct (negb (String.eqb x "id")) eqn:E; cbn; rewrite ?E, IH; reflexivity.
Qed.

Lemma cleaned_twice choices choices' raw :
  length choices = length (rows raw) -> length choices' = length (rows raw) ->
  cleaned choices' (cleaned choices raw) = cleaned choices raw.
Proof.
  intros L L'.
  assert (J : has_column "job_type" (cleaned choices raw) = true).
  { unfold has_column. rewrite cleaned_columns, existsb_app.
    destruct (has_column "job_type" raw) eqn:E.
    - cbn [existsb]. rewrite orb_false_r, has_column_filter by discriminate. exact E.
    - apply orb_true_iff. right. reflexivity. }
  unfold cleaned at 1. rewrite J.
  assert (C : filter (fun c => negb (String.eqb c "id")) (columns (cleaned choices raw))
              = columns (cleaned choices raw)).
  { rewrite cleaned_columns, filter_app, filter_filter_id.
    now destruct (has_column "job_type" raw). }
  rewrite C, !map_map.
  assert (R : map (fun r => fillna_country (fillna_rate (fillna_series choices' r)))
                  (rows (cleaned choices raw)) = rows (cleaned choices raw)).
  { rewrite <- (map_id (rows (cleaned choices raw))) at 2.
    apply map_ext_in. intros r Hr.
    apply settled_fixed with (n := length (rows raw)); [assumption|].
    pose proof (cleaned_settled choices raw L) as F.
    rewrite Forall_forall in F. now apply F. }
  rewrite R. now destruct (cleaned choices raw).
Qed.

Section CleanupProperties.

Variable rand : nat -> nat.

(** X5.  A table without the rate column, or without the country column,
    stops the clean-up: reading the column on lines 25-26 raises. *)
Theorem cleanup_missing_column (st : State) (raw : DataFrame) (rest : list DataFrame) :
  heap st = raw :: rest ->
  has_column "avg_hourly_rate" raw = false \/ has_column "country" raw = false ->
  cleanup rand st = None.
Proof.
  intros H M. destruct (cleanup_explicit rand st raw rest H) as (choices & _ & _ & E).
  rewrite E. destruct M as [-> | ->]; [reflexivity | now rewrite andb_false_r].
Qed.

(** X6.  The clean-up keeps the columns in order, without [id], and adds
    [job_type] at the end when it was absent; it keeps the number of rows. *)
Theorem cleanup_columns (st : State) (raw : DataFrame) (rest : list DataFrame) :
  heap st = raw :: rest ->
  has_column "avg_hourly_rate" raw = true -> has_column "country" raw = true ->
  exists st' f',
    cleanup rand st = Some (tt, st')
    /\ heap st' = f' :: rest
    /\ columns f'
       = filter (fun c => negb (String.eqb c "id")) (columns raw)
         ++ (if has_column "job_type" raw then [] else ["job_type"])
    /\ length (rows f') = length (rows raw).
Proof.
  intros H A C. destruct (cleanup_explicit rand st raw rest H) as (choices & L & _ & E).
  rewrite A, C in E. do 2 eexists. split; [exact E|]. split; [reflexivity|].
  split; [apply cleaned_columns | now apply cleaned_length].
Qed.

(** X7.  A clean-up that completes has drawn one random job type per row,
    whether or not the column was there, has called neither the vectorizer
    nor the similarity, has shown nothing, and has left the other frames of
    the store as they were. *)
Theorem cleanup_effects (st st' : State) (raw : DataFrame) (rest : list DataFrame) :
  heap st = raw :: rest -> cleanup rand st = Some (tt, st') ->
  drawn st' = drawn st + length (rows raw)
  /\ calls st' = calls st /\ page st' = page st
  /\ exists f', heap st' = f' :: rest.
Proof.
  intros H R. destruct (cleanup_explicit rand st raw rest H) as (choices & L & _ & E).
  rewrite R in E.
  destruct (has_column "avg_hourly_rate" raw && has_column "country" raw);
    [|discriminate].
  injection E as ->. cbn. repeat split. eexists. reflexivity.
Qed.

(** X8.  Cleaning a cleaned table changes nothing in it, whatever the second
    run draws. *)
Theorem cleanup_idempotent (rand' : nat -> nat) (st : State) (raw : DataFrame)
    (rest : list DataFrame) :
  heap st = raw :: rest ->
  has_column "avg_hourly_rate" raw = true -> has_column "country" raw = true ->
  exists st1 f1,
    cleanup rand st = Some (tt, st1) /\ heap st1 = f1 :: rest
    /\ exists st2, cleanup rand' st1 = Some (tt, st2) /\ heap st2 = f1 :: rest.
Proof.
  intros H A C. destruct (cleanup_explicit rand st raw rest H) as (choices & L & _ & E).
  rewrite A, C in E. do 2 eexists. split; [exact E|]. split; [reflexivity|].
  set (st1 := mkState _ _ _ _).
  destruct (cleanup_explicit rand' st1 (cleaned choices raw) rest eq_refl)
    as (choices' & L' & _ & E').
  rewrite !cleaned_has_column, A, C in E' by discriminate.
  eexists. split; [exact E'|]. cbn [heap]. f_equal.
  rewrite cleaned_length in L' by assumption. now apply cleaned_twice.
Qed.

End CleanupProperties.

Lemma cleanup_missing_column_witness :
  cleanup (fun _ => 0) (loaded (mkFrame ["title"; "avg_hourly_rate"] [])) = None.
Proof.
  apply (cleanup_missing_column (fun _ => 0) _ (mkFrame ["title"; "avg_hourly_rate"] []) []).
  - reflexivity.
  - right. reflexivity.
Defined.

Lemma cleanup_columns_witness :
  exists st' f',
    cleanup (fun _ => 0) (loaded sample_raw) = Some (tt, st')
    /\ heap st' = [f']
    /\ columns f' = ["title"; "avg_hourly_rate"; "country"; "job_type"]
    /\ length (rows f') = 4.
Proof.
  exact (cleanup_columns (fun _ => 0) (loaded sample_raw) sample_raw [] eq_refl eq_refl eq_refl).
Defined.

Lemma cleanup_effects_witness :
  drawn (mkState [sample_df] 4 [] []) = 4
  /\ calls (mkState [sample_df] 4 [] []) = []
  /\ page (mkState [sample_df] 4 [] []) = []
  /\ exists f', heap (mkState [sample_df] 4 [] []) = [f'].
Proof.
  apply (cleanup_effects (fun _ => 0) (loaded sample_raw) _ sample_raw []).
  - reflexivity.
  - vm_compute. reflexivity.
Defined.

Lemma cleanup_idempotent_witness :
  exists st1 f1,
    cleanup (fun _ => 0) (loaded sample_raw) = Some (tt, st1) /\ heap st1 = [f1]
    /\ exists st2, cleanup (fun _ => 3) st1 = Some (tt, st2) /\ heap st2 = [f1].
Proof.
  exact (cleanup_idempotent (fun _ => 0) (fun _ => 3) (loaded sample_raw) sample_raw []
           eq_refl eq_refl eq_refl).
Defined.

(* ================================================================== *)
(** * The options of the select box *)
(* ================================================================== *)

Lemma ascii_compare_trans a b c o :
  Ascii.compare a b = o -> Ascii.compare b c = o -> Ascii.compare a c = o.
Proof.
  unfold Ascii.compare. intros <-.
  destruct (N.compare_spec (N_of_ascii a) (N_of_ascii b)) as [E|L|G]; intros H.
  - now rewrite E.
  - apply N.compare_lt_iff in H. apply N.compare_lt_iff.
    eapply N.lt_trans; eassumption.
  - apply N.compare_gt_iff in H. apply N.compare_gt_iff.
    eapply N.lt_trans; eassumption.
Qed.

Lemma string_leb_trans a b c :
  String.leb a b = true -> String.leb b c = true -> String.leb a c = true.
Proof.
  unfold String.leb. revert b c. induction a as [|x a IH]; intros [|y b] [|z c]; cbn;
    try reflexivity; try discriminate.
  destruct (Ascii.compare x y) eqn:Exy, (Ascii.compare y z) eqn:Eyz;
    try discriminate; intros H1 H2.
  - apply Ascii.compare_eq_iff in Exy, Eyz. subst. rewrite Ascii.compare_antisym.
    assert (R : Ascii.compare z z = Eq).
    { unfold Ascii.compare. apply N.compare_refl. }
    rewrite R. cbn. now apply IH with (b := b).
  - apply Ascii.compare_eq_iff in Exy. subst. now rewrite Eyz.
  - apply Ascii.compare_eq_iff in Eyz. subst. now rewrite Exy.
  - now rewrite (ascii_compare_trans _ _ _ _ Exy Eyz).
Qed.

Lemma string_ltb_leb a b :
  String.ltb a b = true <-> String.leb a b = true /\ a <> b.
Proof.
  unfold String.ltb, String.leb. destruct (String.compare a b) eqn:E.
  - split; [discriminate|]. intros [_ N]. apply String.compare_eq_iff in E. contradiction.
  - split; [|reflexivity]. intros _. split; [reflexivity|]. intros ->.
    pose proof (String.compare_antisym b b) as A. rewrite E in A. discriminate.
  - split; [discriminate | intros [? _]; discriminate].
Qed.

Lemma insert_sorted_perm x l : Permutation (insert_sorted x l) (x :: l).
Proof.
  induction l as [|y l IH]; cbn; [reflexivity|].
  destruct (String.leb x y); [reflexivity|]. rewrite IH. apply perm_swap.
Qed.

Lemma sorted_perm l : Permutation (sorted l) l.
Proof.
  induction l as [|x l IH]; cbn; [constructor|].
  rewrite insert_sorted_perm. now constructor.
Qed.

Lemma insert_sorted_sorted x l :
  StronglySorted (fun a b => String.leb a b = true) l ->
  StronglySorted (fun a b => String.leb a b = true) (insert_sorted x l).
Proof.
  induction 1 as [|y l S IH F]; cbn; [repeat constructor|].
  destruct (String.leb x y) eqn:E.
  - constructor; [now constructor|]. constructor; [assumption|].
    eapply Forall_impl; [|exact F]. intros z Hz. cbv beta in *.
    eapply string_leb_trans; eauto.
  - constructor; [assumption|].
    eapply Permutation_Forall; [symmetry; apply insert_sorted_perm|].
    constructor; [|assumption].
    destruct (String.leb_total x y) as [T|T]; [congruence | assumption].
Qed.

Lemma sorted_sorted l : StronglySorted (fun a b => String.leb a b = true) (sorted l).
Proof.
  induction l as [|x l IH]; cbn; [constructor | now apply insert_sorted_sorted].
Qed.

Lemma unique_in x l : In x (unique l) <-> In x l.
Proof.
  induction l as [|y l IH]; cbn; [reflexivity|].
  rewrite filter_In, IH, negb_true_iff, String.eqb_neq.
  destruct (String.eqb_spec y x); intuition congruence.
Qed.

Lemma unique_nodup l : NoDup (unique l).
Proof.
  induction l as [|y l IH]; cbn; constructor.
  - rewrite filter_In, negb_true_iff, String.eqb_neq. intros [_ N]. now apply N.
  - now apply NoDup_filter.
Qed.

Lemma dropna_in c col : In c (dropna col) <-> In (Some c) col.
Proof.
  unfold dropna. rewrite in_flat_map. split.
  - intros ([s|] & H & I); [|contradiction]. destruct I as [->|[]]. assumption.
  - intros H. exists (Some c). split; [assumption | now left].
Qed.

Lemma strictly_sorted (l : list string) :
  NoDup l -> StronglySorted (fun a b => String.leb a b = true) l ->
  StronglySorted (fun a b => String.ltb a b = true) l.
Proof.
  intros N S. induction S as [|x l S IH F]; [constructor|].
  inversion N as [|? ? Nx Nl]; subst. constructor; [now apply IH|].
  apply Forall_forall. intros y Hy. rewrite Forall_forall in F.
  apply string_ltb_leb. split; [now apply F|]. intros ->. contradiction.
Qed.

Lemma options_run st f :
  nth_error (heap st) df = Some f -> has_column "country" f = true ->
  unique_countries df st
  = Some (sorted (unique (dropna (map country (rows f)))), st).
Proof.
  intros H C. unfold unique_countries. rewrite (bind_run _ _ _ _ _ (read_run _ _ _ H)).
  now rewrite (bind_run _ _ _ _ _ (require_run _ _ _ C)).
Qed.

Lemma options_members (f : DataFrame) (c : string) :
  In c (sorted (unique (dropna (map country (rows f)))))
  <-> exists r, In r (rows f) /\ country r = Some c.
Proof.
  split.
  - intros I. apply (Permutation_in _ (sorted_perm _)) in I.
    apply unique_in, dropna_in, in_map_iff in I. destruct I as (r & E & I). eauto.
  - intros (r & I & E). apply (Permutation_in _ (Permutation_sym (sorted_perm _))).
    apply unique_in, dropna_in, in_map_iff. eauto.
Qed.

(** X9.  The options of the country select box are the countries present in
    the table, each once, in strictly ascending order; computing them leaves
    the state as it was. *)
Theorem unique_countries_listed (st : State) (f : DataFrame) :
  nth_error (heap st) df = Some f -> has_column "country" f = true ->
  exists options,
    unique_countries df st = Some (options, st)
    /\ StronglySorted (fun a b => String.ltb a b = true) options
    /\ (forall c, In c options <-> exists r, In r (rows f) /\ country r = Some c).
Proof.
  intros H C. exists (sorted (unique (dropna (map country (rows f))))).
  split; [now apply options_run|]. split.
  - apply strictly_sorted; [|apply sorted_sorted].
    eapply Permutation_NoDup; [symmetry; apply sorted_perm | apply unique_nodup].
  - apply options_members.
Qed.

Lemma unique_countries_listed_witness :
  unique_countries df (loaded sample_df)
  = Some (["Canada"; "India"; "United States"; "Unknown"]%string, loaded sample_df).
Proof.
  destruct (unique_countries_listed (loaded sample_df) sample_df eq_refl eq_refl)
    as (options & E & _). rewrite E. vm_compute in E. injection E as <-. reflexivity.
Defined.

(* ================================================================== *)
(** * The tables of the two listings *)
(* ================================================================== *)

Lemma relabel_labels (rs : list Row) s :
  map label (map (fun ir => set_label (Z.of_nat (fst ir)) (snd ir))
                 (combine (seq s (length rs)) rs))
  = map Z.of_nat (seq s (length rs)).
Proof.
  revert s. induction rs as [|r rs IH]; intros s; cbn; [reflexivity|].
  now rewrite IH.
Qed.

Lemma relabel_cells (rs : list Row) s :
  map cells (map (fun ir => set_label (Z.of_nat (fst ir)) (snd ir))
                 (combine (seq s (length rs)) rs))
  = map cells rs.
Proof.
  revert s. induction rs as [|r rs IH]; intros s; cbn; [reflexivity|].
  now rewrite IH.
Qed.

Lemma salaried_cells (rs : list Row) (g : Row -> string) :
  map cells (map (fun rv => set_formatted_salary (Some (snd rv)) (fst rv))
                 (combine rs (map g rs)))
  = map cells rs.
Proof. induction rs as [|r rs IH]; cbn; [reflexivity | now rewrite IH]. Qed.

Lemma salaried_length (t : DataFrame) : length (rows (with_salaries t)) = length (rows t).
Proof.
  unfold with_salaries. cbn [rows].
  rewrite length_map, length_combine, length_map. lia.
Qed.

(** A listing as the page shows it: the records given, in their order, under
    fresh labels 0, 1, ... *)
Lemma listing_content (cols : list string) (rs : list Row) :
  let t := relabelled (with_salaries (mkFrame cols rs)) in
  columns t = with_column "Formatted Salary" cols
  /\ map label (rows t) = map Z.of_nat (seq 0 (length rs))
  /\ map cells (rows t) = map cells rs.
Proof.
  cbv zeta. split; [reflexivity|]. unfold relabelled. cbn [rows columns]. split.
  - rewrite relabel_labels. now rewrite salaried_length.
  - rewrite relabel_cells. apply salaried_cells.
Qed.

(** The outcome of a listing by mask, in full. *)
Lemma masked_listing_page st f mask none :
  nth_error (heap st) df = Some f -> ready f = true ->
  exists st',
    (picked <- select_rows df mask ;;
     selected <- select_columns picked ["title"; "avg_hourly_rate"; "country"; "job_type"] ;;
     e <- empty selected ;;
     if negb e then
       salaries <- apply_format_salary selected "Mid-Level" ;;
       assign_formatted_salary selected salaries ;;
       shown <- reset_index selected ;;
       show_dataframe shown
     else emit (st_warning none)) st = Some (tt, st')
    /\ calls st' = calls st
    /\ page st'
       = page st
         ++ match filter mask (rows f) with
            | [] => [st_warning none]
            | hits =>
              [st_dataframe
                 (relabelled
                    (with_salaries
                       (mkFrame ["title"; "avg_hourly_rate"; "country"; "job_type"] hits)))]
            end.
Proof.
  intros H R. destruct (ready_columns _ R) as (T & A & C & J & F).
  rewrite (bind_run _ _ _ _ _ (select_rows_run _ _ _ mask H)).
  erewrite bind_run;
    [|apply select_columns_run; [cbn [heap]; apply nth_error_last | now apply ready_selection]].
  cbn [heap rows].
  erewrite bind_run; [|apply empty_run; cbn [heap]; apply nth_error_last].
  cbn [rows columns].
  destruct (filter mask (rows f)) as [|r rs] eqn:E; cbn [negb].
  - eexists. split; [reflexivity|]. split; reflexivity.
  - erewrite listing_run; [|reflexivity|reflexivity|reflexivity|].
    + eexists. split; [reflexivity|]. split; reflexivity.
    + cbn [rows]. rewrite <- E. now apply Forall_filter.
Qed.

Lemma country_hits (country_select : option string) (f : DataFrame) (r : Row) :
  In r (filter (country_is country_select) (rows f))
  <-> In r (rows f) /\ exists c, country_select = Some c /\ country r = Some c.
Proof.
  rewrite filter_In. unfold country_is.
  split; intros [I M]; (split; [assumption|]).
  - destruct country_select as [c|]; [|discriminate].
    destruct (country r) as [c'|]; [|discriminate].
    apply String.eqb_eq in M. subst. eauto.
  - destruct M as (c & -> & ->). apply String.eqb_refl.
Qed.

Lemma filter_by_country_page st f country_select :
  nth_error (heap st) df = Some f -> ready f = true ->
  exists st',
    filter_by_country country_select st = Some (tt, st')
    /\ calls st' = calls st
    /\ page st'
       = page st
         ++ match filter (country_is country_select) (rows f) with
            | [] => [st_warning "No jobs found for this country."]
            | hits =>
              [st_dataframe
                 (relabelled
                    (with_salaries
                       (mkFrame ["title"; "avg_hourly_rate"; "country"; "job_type"] hits)))]
            end.
Proof.
  intros H R. destruct (ready_columns _ R) as (T & A & C & J & F).
  destruct (masked_listing_page st f (country_is country_select)
              "No jobs found for this country." H R) as (st' & E & Q & P).
  exists st'. split; [|split; assumption].
  unfold filter_by_country.
  rewrite (bind_run _ _ _ _ _ (read_run _ _ _ H)).
  rewrite (bind_run _ _ _ _ _ (require_run _ _ _ C)). exact E.
Qed.

(** X10.  The country filter keeps exactly the records whose country is the
    selected one, in corpus order and with their four cells unchanged,
    relabelled from 0, under the four columns followed by the salary column;
    with no such record it shows the warning instead of a table. *)
Theorem country_filter_table (country_select : option string) (st : State) (f : DataFrame) :
  nth_error (heap st) df = Some f -> ready f = true ->
  let hits := filter (country_is country_select) (rows f) in
  (forall r, In r hits <->
     In r (rows f) /\ exists c, country_select = Some c /\ country r = Some c)
  /\ exists st',
       filter_by_country country_select st = Some (tt, st')
       /\ (hits = [] ->
           page st' = page st ++ [st_warning "No jobs found for this country."])
       /\ (hits <> [] ->
           exists t,
             page st' = page st ++ [st_dataframe t]
             /\ columns t = ["title"; "avg_hourly_rate"; "country"; "job_type";
                             "Formatted Salary"]
             /\ map label (rows t) = map Z.of_nat (seq 0 (length hits))
             /\ map cells (rows t) = map cells hits).
Proof.
  intros H R hits. split; [intros r; apply country_hits|].
  destruct (filter_by_country_page st f country_select H R) as (st' & E & _ & P).
  exists st'. split; [assumption|]. fold hits in P. split.
  - intros Z. now rewrite Z in P.
  - intros N. destruct hits as [|r rs] eqn:Eh; [congruence|].
    eexists. split; [exact P|]. apply listing_content.
Qed.

Lemma country_filter_table_witness :
  exists st' t,
    filter_by_country (Some "India"%string) (loaded sample_df) = Some (tt, st')
    /\ page st' = [st_dataframe t]
    /\ map cells (rows t)
       = [(Some "Data Analyst"%string, F64.of_Z 120000, Some "India"%string,
           Some "Permanent Full-time"%string)].
Proof.
  destruct (country_filter_table (Some "India"%string) (loaded sample_df) sample_df
              eq_refl eq_refl) as (_ & st' & E & _ & T).
  destruct T as (t & P & _ & _ & Cl); [discriminate|].
  exists st', t. split; [assumption|]. split; assumption.
Defined.

Lemma contains_mentions word text :
  contains word (lower text) = true <-> mentions word text.
Proof.
  rewrite contains_iff. unfold mentions. split.
  - intros (pre & post & E).
    apply lower_split in E. destruct E as (a & b & -> & Ha & Hb).
    apply lower_split in Hb. destruct Hb as (m & p & -> & Hm & Hp).
    now exists a, m, p.
  - intros (pre & mid & post & -> & Hm).
    exists (lower pre), (lower post). now rewrite !lower_app, Hm.
Qed.

(** X11.  The remote listing keeps exactly the records whose title is present
    and names "remote" in any mix of cases, in corpus order and with their
    four cells unchanged, relabelled from 0; with no such record it shows the
    warning instead of a table. *)
Theorem remote_table (st : State) (f : DataFrame) :
  nth_error (heap st) df = Some f -> ready f = true ->
  let hits := filter title_contains_remote (rows f) in
  (forall r, In r hits <->
     In r (rows f) /\ exists t, title r = Some t /\ mentions "remote" t)
  /\ exists st',
       remote_listings st = Some (tt, st')
       /\ (hits = [] -> page st' = page st ++ [st_warning "No remote job listings found."])
       /\ (hits <> [] ->
           exists t,
             page st' = page st ++ [st_dataframe t]
             /\ columns t = ["title"; "avg_hourly_rate"; "country"; "job_type";
                             "Formatted Salary"]
             /\ map label (rows t) = map Z.of_nat (seq 0 (length hits))
             /\ map cells (rows t) = map cells hits).
Proof.
  intros H R hits. split.
  - intros r. unfold hits. rewrite filter_In. unfold title_contains_remote.
    split; intros [I M]; (split; [assumption|]).
    + destruct (title r) as [t|]; [|discriminate].
      exists t. split; [reflexivity|]. now apply contains_mentions.
    + destruct M as (t & -> & M). now apply contains_mentions.
  - destruct (ready_columns _ R) as (T & A & C & J & F).
    destruct (masked_listing_page st f title_contains_remote
                "No remote job listings found." H R) as (st' & E & _ & P).
    exists st'. split.
    + unfold remote_listings.
      rewrite (bind_run _ _ _ _ _ (read_run _ _ _ H)).
      rewrite (bind_run _ _ _ _ _ (require_run _ _ _ T)). exact E.
    + fold hits in P. split.
      * intros Z. now rewrite Z in P.
      * intros N. destruct hits as [|r rs] eqn:Eh; [congruence|].
        eexists. split; [exact P|]. apply listing_content.
Qed.

Lemma remote_table_witness :
  exists st' t,
    remote_listings (loaded sample_df) = Some (tt, st')
    /\ page st' = [st_dataframe t]
    /\ map title (rows t) = [Some "Remote Data Engineer"%string].
Proof.
  destruct (remote_table (loaded sample_df) sample_df eq_refl eq_refl)
    as (_ & st' & E & _ & T).
  destruct T as (t & P & _ & _ & Cl); [discriminate|].
  exists st', t. split; [assumption|]. split; [assumption|].
  apply (f_equal (map (fun c => fst (fst (fst c))))) in Cl.
  rewrite !map_map in Cl. exact Cl.
Defined.

(** X12.  A country picked from the select box always has a non-empty table,
    all of whose rows are of that country; the warning of the country filter
    is shown when the table of jobs is empty. *)
Theorem selected_country_has_jobs (choice : nat) (st : State) (f : DataFrame) :
  nth_error (heap st) df = Some f -> ready f = true ->
  exists options st',
    unique_countries df st = Some (options, st)
    /\ country_section choice st = Some (tt, st')
    /\ (choice < length options ->
        exists c t,
          nth_error options choice = Some c
          /\ page st' = page st ++ [st_dataframe t]
          /\ rows t <> []
          /\ Forall (fun r => country r = Some c) (rows t))
    /\ (rows f = [] ->
        page st' = page st ++ [st_warning "No jobs found for this country."]).
Proof.
  intros H R. destruct (ready_columns _ R) as (T & A & C & J & F).
  pose proof (options_run st f H C) as E.
  set (options := sorted (unique (dropna (map country (rows f))))) in *.
  destruct (filter_by_country_page st f (selectbox options choice) H R)
    as (st' & Ef & _ & P).
  exists options, st'. split; [assumption|]. split.
  { unfold country_section. now rewrite (bind_run _ _ _ _ _ E). }
  split.
  - intros L. unfold selectbox in *.
    destruct (nth_error options choice) as [c|] eqn:N;
      [|apply nth_error_None in N; lia].
    assert (Ic : In c options) by (eapply nth_error_In; eauto).
    apply options_members in Ic. destruct Ic as (r & Ir & Er).
    assert (Ih : In r (filter (country_is (Some c)) (rows f)))
      by (apply country_hits; eauto).
    destruct (filter (country_is (Some c)) (rows f)) as [|h hits] eqn:Eh;
      [contradiction|].
    eexists c, _. split; [reflexivity|]. split; [exact P|].
    destruct (listing_content ["title"; "avg_hourly_rate"; "country"; "job_type"] (h :: hits))
      as (_ & _ & Cl).
    split.
    + intros Z. rewrite Z in Cl. discriminate.
    + assert (Fc : Forall (fun x => snd (fst x) = Some c)
                     (map cells (rows (relabelled (with_salaries
                        (mkFrame ["title"; "avg_hourly_rate"; "country"; "job_type"]
                           (h :: hits))))))).
      { rewrite Cl, <- Eh. apply Forall_map, Forall_forall. intros x Hx.
        apply country_hits in Hx. destruct Hx as (_ & c' & Ec & Ex). cbn. congruence. }
      rewrite Forall_map in Fc. exact Fc.
  - intros Z. rewrite Z in P. exact P.
Qed.

Lemma selected_country_has_jobs_witness :
  exists st' t,
    country_section 2 (loaded sample_df) = Some (tt, st')
    /\ page st' = [st_dataframe t]
    /\ Forall (fun r => country r = Some "United States"%string) (rows t).
Proof.
  destruct (selected_country_has_jobs 2 (loaded sample_df) sample_df eq_refl eq_refl)
    as (options & st' & E & Ec & T & _).
  vm_compute in E. injection E as <-.
  destruct T as (c & t & N & P & _ & Fc); [cbn; lia|].
  injection N as <-. now exists st', t.
Defined.

(* ================================================================== *)
(** * The tables of the ranking blocks *)
(* ================================================================== *)

Lemma top_idx_length k a : 0 < k -> length (top_idx k a) = Nat.min k (length a).
Proof.
  intros Hk. unfold top_idx, slice_last. destruct k; [lia|].
  rewrite length_rev, length_skipn, argsort_length. lia.
Qed.

Lemma relabel_map {B} (g : Row -> B) (t : DataFrame) :
  (forall z r, g (set_label z r) = g r) ->
  map g (rows (relabelled t)) = map g (rows t).
Proof.
  intros G. unfold relabelled. cbn [rows]. generalize 0.
  induction (rows t) as [|r rs IH]; intros s; cbn; [reflexivity|].
  now rewrite G, IH.
Qed.

Section PageTables.

Context {vec : Type} (tfidf : string -> vec) (cosine : vec -> vec -> F64.float).


(** X14.  The same text typed in both fields: the skill-gap table (title, job
    type, country) is the first three rows of the recommendation table. *)
Theorem skill_gap_heads_recommendation (text : string) (st st0 : State) (f : DataFrame) :
  nth_error (heap st) df = Some f -> nth_error (heap st0) df = Some f ->
  ready f = true -> rows f <> [] -> truthy text = true ->
  exists st' st0' t5 t3,
    recommendation_engine vec tfidf cosine text st = Some (tt, st')
    /\ page st' = page st ++ [st_write "### 🏆 Top Recommended Jobs"; st_dataframe t5]
    /\ skill_gap_analyzer vec tfidf cosine text st0 = Some (tt, st0')
    /\ page st0'
       = page st0 ++ [st_success "Here are some roles that best match your skills:";
                      st_table t3]
    /\ columns t3 = ["title"; "job_type"; "country"]
    /\ map label (rows t3) = map Z.of_nat (seq 0 (Nat.min 3 (length (rows f))))
    /\ map (fun r => (title r, job_type r, country r)) (rows t3)
       = firstn 3 (map (fun r => (title r, job_type r, country r)) (rows t5)).
Proof.
  intros H H0 R N Q.
  destruct (recommendation_page tfidf cosine st f text H R N Q) as (st' & E & _ & _ & P).
  destruct (skill_gap_page tfidf cosine st0 f text H0 R N Q) as (st0' & E0 & _ & _ & P0).
  do 4 eexists. split; [exact E|]. split; [exact P|].
  split; [exact E0|]. split; [exact P0|]. split; [reflexivity|]. split.
  - unfold relabelled at 1. cbn [rows]. rewrite relabel_labels.
    rewrite length_map, top_idx_length by lia. now rewrite title_scores_length.
  - rewrite !relabel_map by reflexivity.
    unfold with_salaries. cbn [rows].
    set (g := fun r : Row => (title r, job_type r, country r)).
    assert (Sg : forall rs (h : Row -> string),
               map g (map (fun rv => set_formatted_salary (Some (snd rv)) (fst rv))
                          (combine rs (map h rs))) = map g rs).
    { intros rs h. induction rs as [|r rs IH]; cbn; [reflexivity | now rewrite IH]. }
    rewrite Sg, !firstn_map.
    now rewrite (top_idx_firstn 3 5) by lia.
Qed.


End PageTables.


Lemma skill_gap_heads_recommendation_witness :
  exists st' st0' t5 t3,
    recommendation_engine string (fun s => s) sample_cosine "data" (loaded sample_df)
    = Some (tt, st')
    /\ page st' = [st_write "### 🏆 Top Recommended Jobs"; st_dataframe t5]
    /\ skill_gap_analyzer string (fun s => s) sample_cosine "data" (loaded sample_df)
       = Some (tt, st0')
    /\ page st0'
       = [st_success "Here are some roles that best match your skills:"; st_table t3]
    /\ columns t3 = ["title"; "job_type"; "country"]
    /\ map label (rows t3) = [0; 1; 2]%Z
    /\ map (fun r => (title r, job_type r, country r)) (rows t3)
       = firstn 3 (map (fun r => (title r, job_type r, country r)) (rows t5)).
Proof.
  apply (skill_gap_heads_recommendation (fun s => s) sample_cosine "data"
           (loaded sample_df) (loaded sample_df) sample_df eq_refl eq_refl eq_refl);
    [discriminate | reflexivity].
Defined.


(* ================================================================== *)
(** * What a block leaves alone *)
(* ================================================================== *)

Lemma bind_none {A B} (m : M A) (k : A -> M B) st :
  m st = None -> bind m k st = None.
Proof. unfold bind. now intros ->. Qed.

Section Steady.

Variable R : State -> State -> Prop.
Hypothesis R_refl : forall st, R st st.
Hypothesis R_trans : forall a b c, R a b -> R b c -> R a c.
Hypothesis R_store : forall st h p, R st (mkState h (drawn st) (calls st) p).

Lemma steady_ret {A} (a : A) : steady R (ret a).
Proof. intros st b st' E. injection E as _ <-. apply R_refl. Qed.

Lemma steady_bind {A B} (m : M A) (k : A -> M B) :
  steady R m -> (forall a, steady R (k a)) -> steady R (bind m k).
Proof.
  intros Hm Hk st b st' E. apply bind_inv in E. destruct E as (a & st1 & E1 & E2).
  eapply R_trans; [eapply Hm | eapply Hk]; eassumption.
Qed.

Lemma steady_raise {A} : steady R (@raise A).
Proof. intros st a st' E. discriminate. Qed.

Lemma steady_lift_option {A} (o : option A) : steady R (lift_option o).
Proof. destruct o; [apply steady_ret | apply steady_raise]. Qed.

Lemma steady_read a : steady R (read a).
Proof.
  intros st f st' E. unfold read in E.
  destruct (nth_error (heap st) a); [|discriminate]. injection E as _ <-. apply R_refl.
Qed.

Lemma steady_alloc f : steady R (alloc f).
Proof. intros st a st' E. injection E as _ <-. apply R_store. Qed.

Lemma steady_write a f : steady R (write a f).
Proof.
  intros st u st' E. unfold write in E.
  destruct (nth_error (heap st) a); [|discriminate]. injection E as _ <-.
  apply R_store.
Qed.

Lemma steady_emit o : steady R (emit o).
Proof. intros st u st' E. injection E as _ <-. apply R_store. Qed.

Lemma steady_mapM {A B} (f : A -> M B) (l : list A) :
  (forall x, steady R (f x)) -> steady R (mapM f l).
Proof.
  intros H. induction l as [|x l IH]; cbn [mapM]; [apply steady_ret|].
  apply steady_bind; [apply H | intros y].
  apply steady_bind; [apply IH | intros ys; apply steady_ret].
Qed.

Lemma steady_require_column c f : steady R (require_column c f).
Proof.
  unfold require_column. destruct (has_column c f); [apply steady_ret | apply steady_raise].
Qed.

Ltac steady_step := apply steady_bind; [|intros ?].

Lemma steady_iloc a idx : steady R (iloc a idx).
Proof.
  unfold iloc. steady_step; [apply steady_read|].
  steady_step; [apply steady_mapM; intros; apply steady_lift_option | apply steady_alloc].
Qed.

Lemma steady_iloc_row a i : steady R (iloc_row a i).
Proof. unfold iloc_row. steady_step; [apply steady_read | apply steady_lift_option]. Qed.

Lemma steady_select_rows a mask : steady R (select_rows a mask).
Proof. unfold select_rows. steady_step; [apply steady_read | apply steady_alloc]. Qed.

Lemma steady_select_columns a cols : steady R (select_columns a cols).
Proof.
  unfold select_columns. steady_step; [apply steady_read|].
  steady_step; [apply steady_mapM; intros; apply steady_require_column | apply steady_alloc].
Qed.

Lemma steady_reset_index a : steady R (reset_index a).
Proof. unfold reset_index. steady_step; [apply steady_read | apply steady_alloc]. Qed.

Lemma steady_empty a : steady R (empty a).
Proof. unfold empty. steady_step; [apply steady_read | apply steady_ret]. Qed.

Lemma steady_title_strings a : steady R (title_strings a).
Proof.
  unfold title_strings. steady_step; [apply steady_read|].
  steady_step; [apply steady_require_column | apply steady_ret].
Qed.

Lemma steady_apply_format_salary a level : steady R (apply_format_salary a level).
Proof.
  unfold apply_format_salary. steady_step; [apply steady_read|].
  apply steady_mapM. intros r. unfold salary_of_row.
  steady_step; [apply steady_require_column|].
  steady_step; [apply steady_require_column|].
  steady_step; [apply steady_lift_option | apply steady_ret].
Qed.

Lemma steady_assign_formatted_salary a values :
  steady R (assign_formatted_salary a values).
Proof.
  unfold assign_formatted_salary. steady_step; [apply steady_read|].
  destruct (length values =? _); [apply steady_write | apply steady_raise].
Qed.

Lemma steady_show_dataframe a : steady R (show_dataframe a).
Proof. unfold show_dataframe. steady_step; [apply steady_read | apply steady_emit]. Qed.

Lemma steady_show_table a : steady R (show_table a).
Proof. unfold show_table. steady_step; [apply steady_read | apply steady_emit]. Qed.

Lemma steady_unique_countries a : steady R (unique_countries a).
Proof.
  unfold unique_countries. steady_step; [apply steady_read|].
  steady_step; [apply steady_require_column | apply steady_ret].
Qed.

Lemma steady_listing a :
  steady R (salaries <- apply_format_salary a "Mid-Level" ;;
            assign_formatted_salary a salaries ;;
            shown <- reset_index a ;;
            show_dataframe shown).
Proof.
  steady_step; [apply steady_apply_format_salary|].
  steady_step; [apply steady_assign_formatted_salary|].
  steady_step; [apply steady_reset_index | apply steady_show_dataframe].
Qed.

Lemma steady_filter_by_country country_select :
  steady R (filter_by_country country_select).
Proof.
  unfold filter_by_country. steady_step; [apply steady_read|].
  steady_step; [apply steady_require_column|].
  steady_step; [apply steady_select_rows|].
  steady_step; [apply steady_select_columns|].
  steady_step; [apply steady_empty|].
  destruct (negb _); [apply steady_listing | apply steady_emit].
Qed.

Lemma steady_remote_listings : steady R remote_listings.
Proof.
  unfold remote_listings. steady_step; [apply steady_read|].
  steady_step; [apply steady_require_column|].
  steady_step; [apply steady_select_rows|].
  steady_step; [apply steady_select_columns|].
  steady_step; [apply steady_empty|].
  destruct (negb _); [apply steady_listing | apply steady_emit].
Qed.

Lemma steady_country_section choice : steady R (country_section choice).
Proof.
  unfold country_section. steady_step;
    [apply steady_unique_countries | apply steady_filter_by_country].
Qed.

(** What follows the similarity in the recommendation block. *)
Lemma steady_recommendation_tail (idx : list nat) :
  steady R (picked <- iloc df idx ;;
            results <- select_columns picked ["title"; "avg_hourly_rate"; "country"; "job_type"] ;;
            salaries <- apply_format_salary results "Mid-Level" ;;
            assign_formatted_salary results salaries ;;
            emit (st_write "### 🏆 Top Recommended Jobs") ;;
            shown <- reset_index results ;;
            show_dataframe shown).
Proof.
  steady_step; [apply steady_iloc|].
  steady_step; [apply steady_select_columns|].
  steady_step; [apply steady_apply_format_salary|].
  steady_step; [apply steady_assign_formatted_salary|].
  steady_step; [apply steady_emit|].
  steady_step; [apply steady_reset_index | apply steady_show_dataframe].
Qed.

Lemma steady_skill_gap_tail (idx : list nat) :
  steady R (picked <- iloc df idx ;;
            matched_jobs <- select_columns picked ["title"; "job_type"; "country"] ;;
            emit (st_success "Here are some roles that best match your skills:") ;;
            shown <- reset_index matched_jobs ;;
            show_table shown).
Proof.
  steady_step; [apply steady_iloc|].
  steady_step; [apply steady_select_columns|].
  steady_step; [apply steady_emit|].
  steady_step; [apply steady_reset_index | apply steady_show_table].
Qed.

Lemma steady_resume_tail (level : string) (best_job : Row) :
  steady R (f <- read df ;;
      require_column "avg_hourly_rate" f ;;
      require_column "country" f ;;
      c <- lift_option (country best_job) ;;
      let salary_display := format_salary (avg_hourly_rate best_job) c level in
      require_column "job_type" f ;;
      let job_type := astype_str (job_type best_job) in
      emit (st_markdown "### 🧾 Resume Match Result") ;;
      require_column "title" f ;;
      emit (st_success ("**🏢 Best Match:** " ++ astype_str (title best_job))) ;;
      emit (st_write ("💰 **Expected Rate:** " ++ salary_display)) ;;
      emit (st_write ("🌍 **Country:** " ++ c)) ;;
      emit (st_write ("🏷️ **Job Type:** " ++ job_type)) ;;
      emit (st_markdown "### 💡 Personalized Feedback") ;;
      emit (st_info ("Your profile aligns well with " ++ astype_str (title best_job)
                     ++ ". Consider emphasizing key skills related to this role to improve job match quality."))).
Proof.
  steady_step; [apply steady_read|].
  do 2 (steady_step; [apply steady_require_column|]).
  steady_step; [apply steady_lift_option|]. cbv zeta.
  steady_step; [apply steady_require_column|].
  steady_step; [apply steady_emit|].
  steady_step; [apply steady_require_column|].
  do 5 (steady_step; [apply steady_emit|]). apply steady_emit.
Qed.

End Steady.

Lemma same_draws_refl st : same_draws st st.
Proof. reflexivity. Qed.

Lemma same_draws_trans a b c : same_draws a b -> same_draws b c -> same_draws a c.
Proof. unfold same_draws. congruence. Qed.

Lemma same_draws_store st h p : same_draws st (mkState h (drawn st) (calls st) p).
Proof. reflexivity. Qed.

Lemma same_calls_refl st : same_calls st st.
Proof. split; reflexivity. Qed.

Lemma same_calls_trans a b c : same_calls a b -> same_calls b c -> same_calls a c.
Proof. unfold same_calls. intros [] []. split; congruence. Qed.

Lemma same_calls_store st h p : same_calls st (mkState h (drawn st) (calls st) p).
Proof. split; reflexivity. Qed.

Section Calls.

Context {vec : Type} (tfidf : string -> vec) (cosine : vec -> vec -> F64.float).

Lemma similarity_draws query :
  steady same_draws (similarity_to_titles vec tfidf cosine query).
Proof.
  intros st a st' E. unfold similarity_to_titles in E.
  apply bind_inv in E. destruct E as (titles & st1 & E1 & E).
  apply (steady_title_strings same_draws same_draws_refl same_draws_trans) in E1.
  unfold vectorizer_transform, cosine_similarity, log, bind, ret, raise in E.
  cbn in E. destruct titles; [discriminate|]. injection E as _ <-.
  exact E1.
Qed.

Lemma recommendation_draws job_input :
  steady same_draws (recommendation_engine vec tfidf cosine job_input).
Proof.
  unfold recommendation_engine. destruct (truthy job_input).
  - apply (steady_bind _ same_draws_trans); [apply similarity_draws | intros sims].
    apply (steady_recommendation_tail _ same_draws_refl same_draws_trans same_draws_store).
  - apply (steady_emit _ same_draws_store).
Qed.

Lemma skill_gap_draws skills_input :
  steady same_draws (skill_gap_analyzer vec tfidf cosine skills_input).
Proof.
  unfold skill_gap_analyzer. destruct (truthy skills_input).
  - apply (steady_bind _ same_draws_trans); [apply similarity_draws | intros sims].
    apply (steady_skill_gap_tail _ same_draws_refl same_draws_trans same_draws_store).
  - apply (steady_emit _ same_draws_store).
Qed.

Lemma resume_draws level resume_text clicked :
  steady same_draws (resume_feedback vec tfidf cosine level resume_text clicked).
Proof.
  unfold resume_feedback. destruct clicked; [|apply (steady_ret _ same_draws_refl)].
  destruct (truthy _); [|apply (steady_emit _ same_draws_store)].
  apply (steady_bind _ same_draws_trans).
  - unfold best_match.
    apply (steady_bind _ same_draws_trans); [apply similarity_draws | intros sims].
    apply (steady_bind _ same_draws_trans);
      [apply (steady_lift_option _ same_draws_refl) | intros i].
    apply (steady_iloc_row _ same_draws_refl same_draws_trans).
  - intros best.
    apply (steady_resume_tail _ same_draws_refl same_draws_trans same_draws_store).
Qed.

Lemma user_operations_draws i :
  steady same_draws (user_operations vec tfidf cosine i).
Proof.
  unfold user_operations.
  apply (steady_bind _ same_draws_trans); [apply recommendation_draws | intros _].
  apply (steady_bind _ same_draws_trans);
    [apply (steady_filter_by_country _ same_draws_refl same_draws_trans same_draws_store)
    | intros _].
  apply (steady_bind _ same_draws_trans);
    [apply (steady_remote_listings _ same_draws_refl same_draws_trans same_draws_store)
    | intros _].
  apply (steady_bind _ same_draws_trans); [apply skill_gap_draws | intros _].
  apply resume_draws.
Qed.

(** X16.  Past the clean-up nothing is random: neither the five blocks nor
    the country select box draw a number. *)
Theorem blocks_draw_nothing (i : Inputs) (choice : nat) (st st' : State) :
  (user_operations vec tfidf cosine i st = Some (tt, st') -> drawn st' = drawn st)
  /\ (country_section choice st = Some (tt, st') -> drawn st' = drawn st).
Proof.
  split.
  - intros E. exact (user_operations_draws i _ _ _ E).
  - intros E.
    exact (steady_country_section _ same_draws_refl same_draws_trans same_draws_store
             choice _ _ _ E).
Qed.

(** X17.  The country filter, with or without its select box, and the remote
    listing call neither the vectorizer nor the similarity. *)
Theorem listings_call_nothing (country_select : option string) (choice : nat)
    (st st' : State) :
  (filter_by_country country_select st = Some (tt, st') -> calls st' = calls st)
  /\ (country_section choice st = Some (tt, st') -> calls st' = calls st)
  /\ (remote_listings st = Some (tt, st') -> calls st' = calls st).
Proof.
  split; [|split]; intros E.
  - apply (steady_filter_by_country _ same_calls_refl same_calls_trans same_calls_store) in E.
    apply E.
  - apply (steady_country_section _ same_calls_refl same_calls_trans same_calls_store) in E.
    apply E.
  - apply (steady_remote_listings _ same_calls_refl same_calls_trans same_calls_store) in E.
    apply E.
Qed.





(** X19.  Without a title column the script stops, whatever the inputs: the
    recommendation block raises on a non-empty query, and otherwise the
    country filter does when it selects its columns. *)
Theorem script_needs_title (rand : nat -> nat) (i : Inputs) (raw : DataFrame) :
  has_column "title" raw = false ->
  script vec tfidf cosine rand i (loaded raw) = None.
Proof.
  intros T. unfold script.
  destruct (cleanup_explicit rand (loaded raw) raw [] eq_refl) as (choices & _ & _ & E).
  unfold bind at 1. rewrite E.
  destruct (has_column "avg_hourly_rate" raw && has_column "country" raw) eqn:AC;
    [|reflexivity].
  apply andb_true_iff in AC. destruct AC as [A C].
  set (f := cleaned choices raw).
  assert (Tf : has_column "title" f = false)
    by (unfold f; rewrite cleaned_has_column by discriminate; assumption).
  assert (Cf : has_column "country" f = true)
    by (unfold f; rewrite cleaned_has_column by discriminate; assumption).
  set (st1 := mkState _ _ _ _).
  assert (H1 : nth_error (heap st1) df = Some f) by reflexivity.
  unfold user_operations, recommendation_engine.
  destruct (truthy (job_input i)).
  - do 2 apply bind_none. unfold similarity_to_titles. apply bind_none.
    unfold title_strings. rewrite (bind_run _ _ _ _ _ (read_run _ _ _ H1)).
    apply bind_none. unfold require_column. now rewrite Tf.
  - erewrite bind_run; [|reflexivity]. apply bind_none.
    unfold filter_by_country.
    erewrite bind_run; [|apply read_run; exact H1].
    rewrite (bind_run _ _ _ _ _ (require_run _ _ _ Cf)).
    erewrite bind_run; [|apply select_rows_run; exact H1].
    apply bind_none. unfold select_columns.
    erewrite bind_run; [|apply read_run; cbn [heap]; apply nth_error_last].
    apply bind_none. cbn [mapM]. apply bind_none.
    unfold require_column, has_column. cbn [columns].
    fold (has_column "title" f). now rewrite Tf.
Qed.


End Calls.

Lemma blocks_draw_nothing_witness :
  exists st',
    user_operations string (fun s => s) sample_cosine sample_inputs
      (mkState [sample_df] 4 [] []) = Some (tt, st')
    /\ drawn st' = 4.
Proof.
  destruct (user_operations_run (fun s => s) sample_cosine sample_inputs
              (mkState [sample_df] 4 [] []) sample_df eq_refl eq_refl)
    as (st' & _ & E & _); [discriminate|].
  exists st'. split; [assumption|].
  exact (proj1 (blocks_draw_nothing (fun s => s) sample_cosine sample_inputs 0 _ st') E).
Defined.

Lemma listings_call_nothing_witness :
  exists st',
    remote_listings (mkState [sample_df] 4 [CallTransform ["data"]] []) = Some (tt, st')
    /\ calls st' = [CallTransform ["data"]].
Proof.
  destruct (remote_listings_run (mkState [sample_df] 4 [CallTransform ["data"]] [])
              sample_df eq_refl eq_refl) as (st' & _ & E & _).
  exists st'. split; [assumption|].
  exact (proj2 (proj2 (listings_call_nothing None 0 _ st')) E).
Defined.


Lemma script_needs_title_witness :
  script string (fun s => s) sample_cosine (fun _ => 0) sample_inputs
    (loaded (mkFrame ["avg_hourly_rate"; "country"]
               [mkRow 0 None (F64.of_Z 30) (Some "India") None None])) = None.
Proof.
  apply (script_needs_title (fun s => s) sample_cosine (fun _ => 0) sample_inputs).
  reflexivity.
Defined.


(* ================================================================== *)
(** * Rounding never yields NaN *)
(* ================================================================== *)

Local Open Scope Z_scope.

Lemma shr_1_nonneg mrs : 0 <= shr_m mrs -> 0 <= shr_m (shr_1 mrs).
Proof.
  destruct mrs as [m r s]. cbn. destruct m as [|[p|p|]|[p|p|]]; cbn; lia.
Qed.

Lemma iter_pos_invariant {A} (P : A -> Prop) (f : A -> A) :
  (forall x, P x -> P (f x)) -> forall p x, P x -> P (iter_pos f p x).
Proof.
  intros H. induction p as [p IH|p IH|]; intros x Hx; cbn; auto.
Qed.

Lemma shr_nonneg mrs e n : 0 <= shr_m mrs -> 0 <= shr_m (fst (shr mrs e n)).
Proof.
  intros H. unfold shr. destruct n; cbn; trivial.
  apply (iter_pos_invariant (fun x => 0 <= shr_m x)); [apply shr_1_nonneg | assumption].
Qed.

Lemma shr_record_of_loc_m m l : shr_m (shr_record_of_loc m l) = m.
Proof. destruct l as [|[]]; reflexivity. Qed.

Lemma shr_fexp_nonneg prec emax m e l :
  0 <= m -> 0 <= shr_m (fst (shr_fexp prec emax m e l)).
Proof.
  intros H. unfold shr_fexp. apply shr_nonneg. now rewrite shr_record_of_loc_m.
Qed.

Lemma round_nearest_even_nonneg m l : 0 <= m -> 0 <= round_nearest_even m l.
Proof.
  intros H. unfold round_nearest_even. destruct l as [|[]]; try lia.
  destruct (Z.even m); lia.
Qed.

Lemma binary_round_aux_number prec emax sx mx ex lx :
  0 <= mx -> F64.is_nan (binary_round_aux prec emax sx mx ex lx) = false.
Proof.
  intros H. unfold binary_round_aux.
  pose proof (shr_fexp_nonneg prec emax mx ex lx H) as H1.
  destruct (shr_fexp prec emax mx ex lx) as [mrs' e']. cbn [fst] in H1.
  pose proof (shr_fexp_nonneg prec emax _ e' loc_Exact
                (round_nearest_even_nonneg _ (loc_of_shr_record mrs') H1)) as H2.
  destruct (shr_fexp prec emax _ e' loc_Exact) as [mrs'' e'']. cbn [fst] in H2.
  destruct (shr_m mrs'') as [|p|p]; [reflexivity| |lia].
  destruct (e'' <=? emax - prec); reflexivity.
Qed.

Lemma mul_number x s m e :
  F64.is_nan x = false -> F64.is_nan (F64.mul x (S754_finite s m e)) = false.
Proof.
  destruct x as [sx|sx| |sx mx ex]; cbn; trivial.
  intros _. apply binary_round_aux_number. lia.
Qed.

Lemma div_core_nonneg prec emax m1 e1 m2 e2 :
  0 <= fst (fst (SFdiv_core_binary prec emax (Zpos m1) e1 (Zpos m2) e2)).
Proof.
  unfold SFdiv_core_binary.
  set (s := _ - _ - _).
  set (m' := match s with Z0 => Zpos m1 | Zpos _ => Z.shiftl (Zpos m1) s | Zneg _ => 0 end).
  assert (Hm : 0 <= m').
  { unfold m'. destruct s; try lia. apply Z.shiftl_nonneg. lia. }
  pose proof (Z_div_mod m' (Zpos m2) eq_refl) as D.
  destruct (Z.div_eucl m' (Zpos m2)) as [q r]. cbn [fst].
  destruct D as [D1 D2]. nia.
Qed.

Lemma div_number x s m e :
  F64.is_nan x = false -> F64.is_nan (F64.div x (S754_finite s m e)) = false.
Proof.
  destruct x as [sx|sx| |sx mx ex]; cbn; trivial.
  intros _.
  pose proof (div_core_nonneg F64.prec F64.emax mx ex m e) as H.
  change (SFdiv_core_binary 53 1024 (Zpos mx) ex (Zpos m) e)
    with (SFdiv_core_binary F64.prec F64.emax (Zpos mx) ex (Zpos m) e).
  destruct (SFdiv_core_binary F64.prec F64.emax (Zpos mx) ex (Zpos m) e) as [[mz ez] lz].
  apply binary_round_aux_number. exact H.
Qed.

Lemma multiplier_finite level :
  exists m e, experience_multiplier level = S754_finite false m e.
Proof.
  unfold experience_multiplier.
  destruct (String.eqb level "Fresher");
    [|destruct (String.eqb level "Mid-Level"); [|destruct (String.eqb level "Senior")]];
    do 2 eexists; vm_compute; reflexivity.
Qed.

(** X21.  A rate that is a number stays one: the adjusted rate and the two
    quotients the formatter prints are never NaN. *)
Theorem salary_of_number (rate : F64.float) (experience_level : string) :
  F64.is_nan rate = false ->
  let adjusted := F64.mul rate (experience_multiplier experience_level) in
  F64.is_nan adjusted = false
  /\ F64.is_nan (F64.div adjusted (F64.of_Z 100000)) = false
  /\ F64.is_nan (F64.div adjusted (F64.of_Z 1000)) = false.
Proof.
  intros H. cbv zeta. destruct (multiplier_finite experience_level) as (m & e & ->).
  pose proof (mul_number rate false m e H) as A.
  split; [assumption|]. split; apply (div_number _ false); assumption.
Qed.

Lemma salary_of_number_witness :
  F64.is_nan (F64.mul (S754_infinity false) (experience_multiplier "Senior")) = false.
Proof. exact (proj1 (salary_of_number (S754_infinity false) "Senior" eq_refl)). Defined.

(** X22.  A missing rate that reaches the formatter fails every threshold
    and is printed by the hourly branch, as nan. *)
Theorem format_salary_of_missing_rate (country experience_level : string) :
  format_salary S754_nan country experience_level
  = if contains "india" (lower country) then "₹nan/hr" else "$nan/hr".
Proof.
  unfold format_salary. destruct (multiplier_finite experience_level) as (m & e & ->).
  change (F64.mul S754_nan (S754_finite false m e)) with S754_nan.
  unfold render.
  change (F64.ge S754_nan (F64.of_Z 100000)) with false.
  change (F64.ge S754_nan (F64.of_Z 1000)) with false.
  reflexivity.
Qed.
